(** * The LLM Council API client ([frontend/src/api.js])

    A shallow embedding of the browser-side client: the header helper
    [getHeaders], the four request/response operations and the streaming
    consumer [sendMessageStream], together with the pieces of the JavaScript
    platform the consumer leans on ([TextDecoder], [String.prototype.split],
    [startsWith], [slice], [JSON.parse]).

    JavaScript strings are sequences of UTF-16 code units, raw chunks are
    sequences of bytes, the headers object is a finite map, and the
    asynchronous operations are computations in a small state-and-exception
    monad over a [World] that records what the outside can observe: the
    requests issued, the reads performed on the response body, the
    invocations of the caller's callback and the console. *)

From Stdlib Require Import NArith Ascii String List Lia.
From stdpp Require Import base option list strings gmap.

Local Open Scope N_scope.

(** ** JavaScript strings and raw bytes *)

(** A JavaScript string: its UTF-16 code units. *)
Definition text : Type := list N.

(** A [Uint8Array] as delivered by the body reader. *)
Definition bytes : Type := list Byte.byte.

(** An ASCII literal of the source as a JavaScript string. *)
Definition str (s : string) : text :=
  map N_of_ascii (list_ascii_of_string s).

(** The same literal as it travels on the wire. *)
Definition wire (s : string) : bytes :=
  map byte_of_ascii (list_ascii_of_string s).

(** Literals that contain double quotes are written with an apostrophe in
    the place of each double quote (code 34). *)
Definition quoted (a : ascii) : ascii :=
  if Ascii.eqb a "'" then ascii_of_N 34 else a.

Definition jtext (s : string) : text :=
  map (fun a => N_of_ascii (quoted a)) (list_ascii_of_string s).

Definition jwire (s : string) : bytes :=
  map (fun a => byte_of_ascii (quoted a)) (list_ascii_of_string s).

Definition text_eqb (a b : text) : bool := bool_decide (a = b).

(** The line separator ['\n']. *)
Definition NL : N := 10.

(** [s.split(sep)] for a one-unit separator: never empty, and a string
    that ends with the separator yields a last segment that is empty. *)
Fixpoint split (sep : N) (s : text) : list text :=
  match s with
  | [] => [[]]
  | c :: r =>
      if c =? sep then [] :: split sep r
      else match split sep r with
           | l :: ls => (c :: l) :: ls
           | [] => [[c]]
           end
  end.


(** [s.startsWith(p)]. *)
Fixpoint startsWith (p s : text) : bool :=
  match p, s with
  | [], _ => true
  | _ :: _, [] => false
  | a :: p', b :: s' => (a =? b) && startsWith p' s'
  end.

(** [s.slice(n)] for a non-negative start. *)
Definition slice (n : nat) (s : text) : text := drop n s.

(** ** [TextDecoder]: the UTF-8 decoder of the Encoding standard *)

Module Utf8.

Record state : Type := mk_state {
  code_point : N;
  bytes_seen : N;
  bytes_needed : N;
  lower_boundary : N;
  upper_boundary : N
}.

Definition init : state := mk_state 0 0 0 0x80 0xBF.

Definition REPLACEMENT : N := 0xFFFD.
Definition BOM : N := 0xFEFF.

Definition between (lo hi b : N) : bool := (lo <=? b) && (b <=? hi).

(** A byte met while no sequence is open. *)
Definition lead (b : N) : list N * state :=
  if between 0x00 0x7F b then ([b], init)
  else if between 0xC2 0xDF b then
    ([], mk_state (N.land b 0x1F) 0 1 0x80 0xBF)
  else if between 0xE0 0xEF b then
    ([], mk_state (N.land b 0xF) 0 2
           (if b =? 0xE0 then 0xA0 else 0x80)
           (if b =? 0xED then 0x9F else 0xBF))
  else if between 0xF0 0xF4 b then
    ([], mk_state (N.land b 0x7) 0 3
           (if b =? 0xF0 then 0x90 else 0x80)
           (if b =? 0xF4 then 0x8F else 0xBF))
  else ([REPLACEMENT], init).

(** One step of the decoder's handler in replacement mode.  A byte that
    cannot continue the open sequence closes it with U+FFFD and is then
    looked at again as a first byte. *)
Definition handler (st : state) (b : N) : list N * state :=
  if bytes_needed st =? 0 then lead b
  else if negb (between (lower_boundary st) (upper_boundary st) b) then
    let '(out, st') := lead b in (REPLACEMENT :: out, st')
  else
    let cp := N.lor (N.shiftl (code_point st) 6) (N.land b 0x3F) in
    let seen := bytes_seen st + 1 in
    if seen =? bytes_needed st then ([cp], init)
    else ([], mk_state cp seen (bytes_needed st) 0x80 0xBF).

(** Feed the bytes, then the end of the queue: a sequence still open at
    the end becomes one U+FFFD. *)
Fixpoint run (st : state) (bs : list N) : list N :=
  match bs with
  | [] => if bytes_needed st =? 0 then [] else [REPLACEMENT]
  | b :: r => let '(out, st') := handler st b in out ++ run st' r
  end.

(** The decoder state once the bytes have been fed (no flush). *)
Fixpoint feed (st : state) (bs : list N) : state :=
  match bs with
  | [] => st
  | b :: r => feed (snd (handler st b)) r
  end.

(** A scalar value as UTF-16 code units. *)
Definition utf16 (cp : N) : list N :=
  if cp <? 0x10000 then [cp]
  else [0xD800 + (cp - 0x10000) / 0x400; 0xDC00 + (cp - 0x10000) mod 0x400].

(** Serialisation drops one leading byte-order mark. *)
Definition strip_bom (cps : list N) : list N :=
  match cps with
  | c :: r => if c =? BOM then r else cps
  | [] => []
  end.

(** [new TextDecoder().decode(value)] with no [stream] option: every call
    starts from a fresh decoder and flushes at the end of [value]. *)
Definition decode (value : bytes) : text :=
  flat_map utf16 (strip_bom (run init (map Byte.to_N value))).

End Utf8.

(** ** JSON values and [JSON.parse] *)

(** A parsed JSON value.  A number keeps its lexeme (its value as a double
    is not interpreted); an object keeps its members in source order. *)
#[warnings="-register-all"]
Inductive json : Type :=
  | JNull
  | JBool (b : bool)
  | JNum (lexeme : text)
  | JStr (s : text)
  | JArr (items : list json)
  | JObj (members : list (text * json)).

(** The own property [key] of an object built by [JSON.parse]: of two
    members with the same name the later one wins. *)
Fixpoint own_property (key : text) (ms : list (text * json)) : option json :=
  match ms with
  | [] => None
  | (k, v) :: r =>
      match own_property key r with
      | Some v' => Some v'
      | None => if text_eqb k key then Some v else None
      end
  end.

(** The outcome of evaluating [event.type]: [None] when the access throws
    a [TypeError] ([event] is [null]); otherwise the value read, with
    [None] inside standing for [undefined].  Arrays, strings, numbers and
    booleans have no [type] property. *)
Definition type_of (event : json) : option (option json) :=
  match event with
  | JNull => None
  | JObj ms => Some (own_property (str "type") ms)
  | _ => Some None
  end.

(** The grammar of ECMA-404 as [JSON.parse] reads it. *)
Module Json.

Definition is_ws (c : N) : bool :=
  (c =? 0x20) || (c =? 0x09) || (c =? 0x0A) || (c =? 0x0D).

Fixpoint skip_ws (s : text) : text :=
  match s with
  | c :: r => if is_ws c then skip_ws r else s
  | [] => []
  end.

Definition is_digit (c : N) : bool := (0x30 <=? c) && (c <=? 0x39).

(** The longest run of digits in front of [s], and what follows. *)
Fixpoint digits (s : text) : text * text :=
  match s with
  | c :: r =>
      if is_digit c then let '(d, r') := digits r in (c :: d, r')
      else ([], s)
  | [] => ([], [])
  end.

(** One or more digits. *)
Definition digits1 (s : text) : option (text * text) :=
  match digits s with
  | ([], _) => None
  | p => Some p
  end.

Definition int_part (s : text) : option (text * text) :=
  match s with
  | c :: r =>
      if c =? 0x30 then Some ([c], r)
      else if is_digit c then let '(d, r') := digits r in Some (c :: d, r')
      else None
  | [] => None
  end.

Definition frac_part (s : text) : option (text * text) :=
  match s with
  | c :: r =>
      if c =? 0x2E then
        '(d, r') ← digits1 r; Some (c :: d, r')
      else Some ([], s)
  | [] => Some ([], [])
  end.

Definition exp_part (s : text) : option (text * text) :=
  match s with
  | c :: r =>
      if (c =? 0x65) || (c =? 0x45) then
        match r with
        | sg :: r1 =>
            if (sg =? 0x2B) || (sg =? 0x2D) then
              '(d, r') ← digits1 r1; Some (c :: sg :: d, r')
            else '(d, r') ← digits1 r; Some (c :: d, r')
        | [] => None
        end
      else Some ([], s)
  | [] => Some ([], [])
  end.

Definition number (s : text) : option (text * text) :=
  let '(sign, s0) :=
    match s with
    | c :: r => if c =? 0x2D then ([c], r) else ([], s)
    | [] => ([], [])
    end in
  '(i, s1) ← int_part s0;
  '(f, s2) ← frac_part s1;
  '(e, s3) ← exp_part s2;
  Some (sign ++ i ++ f ++ e, s3).

Definition hex (c : N) : option N :=
  if is_digit c then Some (c - 0x30)
  else if (0x61 <=? c) && (c <=? 0x66) then Some (c - 0x61 + 10)
  else if (0x41 <=? c) && (c <=? 0x46) then Some (c - 0x41 + 10)
  else None.

Definition escape (c : N) : option N :=
  if c =? 0x22 then Some 0x22
  else if c =? 0x5C then Some 0x5C
  else if c =? 0x2F then Some 0x2F
  else if c =? 0x62 then Some 0x08
  else if c =? 0x66 then Some 0x0C
  else if c =? 0x6E then Some 0x0A
  else if c =? 0x72 then Some 0x0D
  else if c =? 0x74 then Some 0x09
  else None.

(** The characters of a string literal after its opening quote, up to
    and including the closing quote. *)
Fixpoint chars (s : text) : option (text * text) :=
  match s with
  | [] => None
  | c :: r =>
      if c =? 0x22 then Some ([], r)
      else if c =? 0x5C then
        match r with
        | e :: r1 =>
            if e =? 0x75 then
              match r1 with
              | h1 :: h2 :: h3 :: h4 :: r2 =>
                  a ← hex h1; b ← hex h2; c' ← hex h3; d ← hex h4;
                  '(t, r3) ← chars r2;
                  Some (((a * 16 + b) * 16 + c') * 16 + d :: t, r3)
              | _ => None
              end
            else
              u ← escape e;
              '(t, r2) ← chars r1;
              Some (u :: t, r2)
        | [] => None
        end
      else if c <? 0x20 then None
      else '(t, r1) ← chars r; Some (c :: t, r1)
  end.

(** A keyword ([true], [false], [null]) in front of [s]. *)
Definition keyword (k : text) (v : json) (s : text) : option (json * text) :=
  if startsWith k s then Some (v, drop (length k) s) else None.

Fixpoint value (fuel : nat) (s : text) : option (json * text) :=
  match fuel with
  | O => None
  | Datatypes.S n =>
      match skip_ws s with
      | [] => None
      | c :: r =>
          if c =? 0x7B then
            match skip_ws r with
            | c' :: r' =>
                if c' =? 0x7D then Some (JObj [], r')
                else '(ms, r1) ← members n r; Some (JObj ms, r1)
            | [] => None
            end
          else if c =? 0x5B then
            match skip_ws r with
            | c' :: r' =>
                if c' =? 0x5D then Some (JArr [], r')
                else '(vs, r1) ← elements n r; Some (JArr vs, r1)
            | [] => None
            end
          else if c =? 0x22 then
            '(t, r1) ← chars r; Some (JStr t, r1)
          else if c =? 0x74 then keyword (str "true") (JBool true) (c :: r)
          else if c =? 0x66 then keyword (str "false") (JBool false) (c :: r)
          else if c =? 0x6E then keyword (str "null") JNull (c :: r)
          else '(l, r1) ← number (c :: r); Some (JNum l, r1)
      end
  end
with elements (fuel : nat) (s : text) : option (list json * text) :=
  match fuel with
  | O => None
  | Datatypes.S n =>
      '(v, s1) ← value n s;
      match skip_ws s1 with
      | c :: r =>
          if c =? 0x2C then '(vs, s2) ← elements n r; Some (v :: vs, s2)
          else if c =? 0x5D then Some ([v], r)
          else None
      | [] => None
      end
  end
with members (fuel : nat) (s : text) : option (list (text * json) * text) :=
  match fuel with
  | O => None
  | Datatypes.S n =>
      match skip_ws s with
      | q :: r =>
          if q =? 0x22 then
            '(k, s1) ← chars r;
            match skip_ws s1 with
            | c :: r1 =>
                if c =? 0x3A then
                  '(v, s2) ← value n r1;
                  match skip_ws s2 with
                  | c' :: r2 =>
                      if c' =? 0x2C then
                        '(ms, s3) ← members n r2; Some ((k, v) :: ms, s3)
                      else if c' =? 0x7D then Some ([(k, v)], r2)
                      else None
                  | [] => None
                  end
                else None
            | [] => None
            end
          else None
      | [] => None
      end
  end.

(** [JSON.parse(s)]: one value, surrounded by white space only; [None]
    stands for the [SyntaxError]. *)
Definition parse (s : text) : option json :=
  '(v, r) ← value (2 * length s + 2) s;
  match skip_ws r with
  | [] => Some v
  | _ :: _ => None
  end.

(** *** [JSON.stringify] *)

Definition hex_digit (d : N) : N :=
  if d <? 10 then 0x30 + d else 0x61 + (d - 10).

(** The escape [\uXXXX] of one code unit, in lower-case hexadecimal. *)
Definition unicode_escape (c : N) : text :=
  [0x5C; 0x75;
   hex_digit (c / 4096 mod 16); hex_digit (c / 256 mod 16);
   hex_digit (c / 16 mod 16); hex_digit (c mod 16)].

Definition is_high (c : N) : bool := (0xD800 <=? c) && (c <=? 0xDBFF).
Definition is_low (c : N) : bool := (0xDC00 <=? c) && (c <=? 0xDFFF).

Definition quote_unit (c : N) : text :=
  if c =? 0x22 then [0x5C; 0x22]
  else if c =? 0x5C then [0x5C; 0x5C]
  else if c =? 0x08 then [0x5C; 0x62]
  else if c =? 0x0C then [0x5C; 0x66]
  else if c =? 0x0A then [0x5C; 0x6E]
  else if c =? 0x0D then [0x5C; 0x72]
  else if c =? 0x09 then [0x5C; 0x74]
  else if c <? 0x20 then unicode_escape c
  else [c].

(** Well-formed stringification: a surrogate without its partner is
    escaped, a pair is copied. *)
Fixpoint quote_units (s : text) : text :=
  match s with
  | [] => []
  | c :: r =>
      if is_high c then
        match r with
        | d :: r' =>
            if is_low d then c :: d :: quote_units r'
            else unicode_escape c ++ quote_units r
        | [] => unicode_escape c
        end
      else if is_low c then unicode_escape c ++ quote_units r
      else quote_unit c ++ quote_units r
  end.

Definition quote (s : text) : text := [0x22] ++ quote_units s ++ [0x22].

Fixpoint join (sep : text) (parts : list text) : text :=
  match parts with
  | [] => []
  | [x] => x
  | x :: r => x ++ sep ++ join sep r
  end.

(** [JSON.stringify(v)] with no indentation; a number is written back as
    its lexeme. *)
Fixpoint stringify (v : json) : text :=
  match v with
  | JNull => str "null"
  | JBool true => str "true"
  | JBool false => str "false"
  | JNum l => l
  | JStr s => quote s
  | JArr items => [0x5B] ++ join [0x2C] (map stringify items) ++ [0x5D]
  | JObj ms =>
      [0x7B]
        ++ join [0x2C]
             (map (fun kv => match kv with
                            | (k, x) => quote k ++ [0x3A] ++ stringify x
                            end) ms)
        ++ [0x7D]
  end.

End Json.

(** ** The observable world and the monad of asynchronous operations *)

(** What a JavaScript [throw] carries. *)
Inductive exn : Type :=
  | Error (message : string)
  | SyntaxError
  | TypeError
  | Foreign (what : string).

(** The [init] argument of [fetch] together with its URL; [method] is
    [None] where the source gives none (a GET). *)
Record Request : Type := mk_request {
  url : text;
  method : option string;
  headers : gmap string text;
  body : option text
}.

(** The body of a response as its reader hands it out: the chunks, then
    either the end of data ([None]) or a failing read. *)
Record Body : Type := mk_body {
  chunks : list bytes;
  ending : option exn
}.

(** A settled [fetch]: [response.ok] and [response.body], which is [null]
    ([None]) for a response without a body, as for the statuses 204 and
    205. *)
Record Response : Type := mk_response {
  ok : bool;
  body_stream : option Body
}.

(** The body as the platform consumes it: a response without a body has
    nothing to deliver and ends at once. *)
Definition stream (response : Response) : Body :=
  match body_stream response with
  | Some b => b
  | None => mk_body [] None
  end.

(** An argument of the callback that may be [undefined]. *)
Definition jsval : Type := option json.

Inductive Result (A : Type) : Type :=
  | Ok (a : A)
  | Throw (e : exn).
Arguments Ok {A} a.
Arguments Throw {A} e.

Section Client.

(** The caller's side: the state its callback works on, and the callback
    itself, which may throw. *)
Context {CB : Type}.
Variable onEvent : jsval -> json -> CB -> option exn * CB.

(** The platform: [JSON.parse] ([None] is its [SyntaxError]),
    [JSON.stringify], and how [fetch] settles for a request. *)
Variable JSON_parse : text -> option json.
Variable JSON_stringify : json -> text.
Variable network : Request -> Result Response.

(** [import.meta.env]. *)
Variable VITE_API_BASE : option text.
Variable PROD : bool.

Record World : Type := mk_world {
  requests : list Request;
  reads : nat;
  calls : list (jsval * json);
  console : list (string * exn);
  callback : CB
}.

Definition M (A : Type) : Type := World -> Result A * World.

Definition ret {A} (a : A) : M A := fun w => (Ok a, w).

Definition bind {A B} (m : M A) (k : A -> M B) : M B :=
  fun w =>
    match m w with
    | (Ok a, w') => k a w'
    | (Throw e, w') => (Throw e, w')
    end.

Definition throw {A} (e : exn) : M A := fun w => (Throw e, w).

(** [try { m } catch (e) { h e }]. *)
Definition try_catch {A} (m : M A) (h : exn -> M A) : M A :=
  fun w =>
    match m w with
    | (Ok a, w') => (Ok a, w')
    | (Throw e, w') => h e w'
    end.

Notation "x <- m ;; k" := (bind m (fun x => k))
  (at level 100, m at next level, right associativity).
Notation "m ;; k" := (bind m (fun _ => k))
  (at level 100, right associativity).

(** [for (const x of xs) { f x }]. *)
Fixpoint for_of {A} (xs : list A) (f : A -> M unit) : M unit :=
  match xs with
  | [] => ret tt
  | x :: r => f x ;; for_of r f
  end.

(** *** Effects *)

(** [await fetch(url, init)]. *)
Definition fetch (req : Request) : M Response :=
  fun w =>
    (network req,
     mk_world (requests w ++ [req]) (reads w) (calls w) (console w) (callback w)).

(** One [await reader.read()]. *)
Definition read_tick : M unit :=
  fun w =>
    (Ok tt,
     mk_world (requests w) (Datatypes.S (reads w)) (calls w) (console w) (callback w)).

(** [onEvent(type, event)]. *)
Definition invoke (type : jsval) (event : json) : M unit :=
  fun w =>
    let '(r, cb) := onEvent type event (callback w) in
    (match r with None => Ok tt | Some e => Throw e end,
     mk_world (requests w) (reads w) (calls w ++ [(type, event)]) (console w) cb).

(** [console.error(label, e)]. *)
Definition console_error (label : string) (e : exn) : M unit :=
  fun w =>
    (Ok tt,
     mk_world (requests w) (reads w) (calls w) (console w ++ [(label, e)]) (callback w)).

(** [JSON.parse(data)]. *)
Definition parse (data : text) : M json :=
  match JSON_parse data with
  | Some v => ret v
  | None => throw SyntaxError
  end.

(** [event.type]. *)
Definition get_type (event : json) : M jsval :=
  match type_of event with
  | Some t => ret t
  | None => throw TypeError
  end.

(** *** The client *)

(** [x || y] on strings that may be [undefined]. *)
Definition or_else (x : option text) (y : text) : text :=
  match x with
  | Some (c :: r) => c :: r
  | _ => y
  end.

Definition API_BASE : text :=
  or_else VITE_API_BASE (if PROD then [] else str "http://localhost:8001").

Definition getHeaders (sharedSecret : option text) : gmap string text :=
  let headers : gmap string text :=
    {[ "Content-Type"%string := str "application/json" ]} in
  match sharedSecret with
  | Some (c :: r) => <[ "X-Shared-Secret"%string := c :: r ]> headers
  | _ => headers
  end.

(** How a settled exchange that only wants the JSON body ends:
    [response.json()] reads the body to its end, decodes it as UTF-8 and
    parses it. *)
Definition response_json (response : Response) : M json :=
  match ending (stream response) with
  | Some e => throw e
  | None => parse (Utf8.decode (concat (chunks (stream response))))
  end.

Definition listConversations (sharedSecret : option text) : M json :=
  response <- fetch (mk_request (API_BASE ++ str "/api/conversations")
                       None (getHeaders sharedSecret) None) ;;
  if negb (ok response) then throw (Error "Failed to list conversations")
  else response_json response.

Definition createConversation (sharedSecret : option text) : M json :=
  response <- fetch (mk_request (API_BASE ++ str "/api/conversations")
                       (Some "POST"%string) (getHeaders sharedSecret)
                       (Some (JSON_stringify (JObj [])))) ;;
  if negb (ok response) then throw (Error "Failed to create conversation")
  else response_json response.

Definition getConversation (conversationId : text)
    (sharedSecret : option text) : M json :=
  response <- fetch (mk_request
                       (API_BASE ++ str "/api/conversations/" ++ conversationId)
                       None (getHeaders sharedSecret) None) ;;
  if negb (ok response) then throw (Error "Failed to get conversation")
  else response_json response.

Definition sendMessage (conversationId content : text)
    (sharedSecret : option text) : M json :=
  response <- fetch (mk_request
                       (API_BASE ++ str "/api/conversations/" ++ conversationId
                          ++ str "/message")
                       (Some "POST"%string) (getHeaders sharedSecret)
                       (Some (JSON_stringify
                                (JObj [(str "content", JStr content)])))) ;;
  if negb (ok response) then throw (Error "Failed to send message")
  else response_json response.

(** The body of the [for] loop: one segment of a decoded chunk. *)
Definition handle_line (line : text) : M unit :=
  if startsWith (str "data: ") line then
    let data := slice 6 line in
    try_catch
      (event <- parse data ;;
       type <- get_type event ;;
       invoke type event)
      (fun e => console_error "Failed to parse SSE event:" e)
  else ret tt.

(** The body of the [while] loop once a chunk has arrived. *)
Definition handle_chunk (value : bytes) : M unit :=
  let chunk := Utf8.decode value in
  let lines := split NL chunk in
  for_of lines handle_line.

(** [while (true) { const {done, value} = await reader.read(); ... }] over
    a body that delivers [cs] and then ends as [fin] says. *)
Fixpoint read_loop (cs : list bytes) (fin : option exn) : M unit :=
  match cs with
  | value :: rest => read_tick ;; handle_chunk value ;; read_loop rest fin
  | [] =>
      read_tick ;;
      match fin with
      | None => ret tt
      | Some e => throw e
      end
  end.

Definition sendMessageStream (conversationId content : text)
    (sharedSecret : option text) : M unit :=
  response <- fetch (mk_request
                       (API_BASE ++ str "/api/conversations/" ++ conversationId
                          ++ str "/message/stream")
                       (Some "POST"%string) (getHeaders sharedSecret)
                       (Some (JSON_stringify
                                (JObj [(str "content", JStr content)])))) ;;
  if negb (ok response) then throw (Error "Failed to send message")
  else
    match body_stream response with
    | None => throw TypeError
    | Some reader => read_loop (chunks reader) (ending reader)
    end.

(** The request [sendMessageStream] hands to [fetch]. *)
Definition stream_request (conversationId content : text)
    (sharedSecret : option text) : Request :=
  mk_request
    (API_BASE ++ str "/api/conversations/" ++ conversationId
       ++ str "/message/stream")
    (Some "POST"%string) (getHeaders sharedSecret)
    (Some (JSON_stringify (JObj [(str "content", JStr content)]))).

(** *** The five operations as one family *)

Inductive Operation : Type :=
  | ListConversations
  | CreateConversation
  | GetConversation (conversationId : text)
  | SendMessage (conversationId content : text)
  | SendMessageStream (conversationId content : text).

(** Run an operation for its effects. *)
Definition perform (op : Operation) (sharedSecret : option text) : M unit :=
  match op with
  | ListConversations => listConversations sharedSecret ;; ret tt
  | CreateConversation => createConversation sharedSecret ;; ret tt
  | GetConversation id => getConversation id sharedSecret ;; ret tt
  | SendMessage id content => sendMessage id content sharedSecret ;; ret tt
  | SendMessageStream id content => sendMessageStream id content sharedSecret
  end.

(** *** Reference consumer with a Pending Buffer

    The read loop as the design document words it, for comparison with
    [read_loop]: the decoded text is appended to the buffer, the buffer
    is split on newlines, all segments but the last are complete records
    and the buffer is reset to the last segment; what is left in the
    buffer when the data ends is dropped. *)
Fixpoint buffered_loop (buffer : text) (cs : list bytes) (fin : option exn)
    : M unit :=
  match cs with
  | value :: rest =>
      read_tick ;;
      let segments := split NL (buffer ++ Utf8.decode value) in
      for_of (removelast segments) handle_line ;;
      buffered_loop (List.last segments []) rest fin
  | [] =>
      read_tick ;;
      match fin with
      | None => ret tt
      | Some e => throw e
      end
  end.

(** The Pending Buffer of the reference consumer after the chunks [cs]. *)
Fixpoint pending (buffer : text) (cs : list bytes) : text :=
  match cs with
  | value :: rest =>
      pending (List.last (split NL (buffer ++ Utf8.decode value)) []) rest
  | [] => buffer
  end.

(** *** Vocabulary for the statements *)

(** A newline-terminated event record carrying the payload [p]. *)
Definition record (p : text) : text := str "data: " ++ p ++ [NL].

(** The segments the [for] loop visits over a whole body, in order. *)
Definition lines_of (cs : list bytes) : list text :=
  flat_map (fun value => split NL (Utf8.decode value)) cs.

(** The callback invocation a segment leads to, if any. *)
Definition event_of (line : text) : option (jsval * json) :=
  if startsWith (str "data: ") line then
    v ← JSON_parse (slice 6 line); t ← type_of v; Some (t, v)
  else None.

Definition events (lines : list text) : list (jsval * json) :=
  omap event_of lines.

(** How the operation settles once the body has been read to its end. *)
Definition settle (fin : option exn) : Result unit :=
  match fin with
  | None => Ok tt
  | Some e => Throw e
  end.

(** The world after one more request. *)
Definition sent (req : Request) (w : World) : World :=
  mk_world (requests w ++ [req]) (reads w) (calls w) (console w) (callback w).

(** The world after [n] more reads. *)
Definition bump (n : nat) (w : World) : World :=
  mk_world (requests w) (n + reads w)%nat (calls w) (console w) (callback w).

(** The world after one more line on the console. *)
Definition logged (e : exn) (w : World) : World :=
  mk_world (requests w) (reads w) (calls w)
    (console w ++ [("Failed to parse SSE event:"%string, e)]) (callback w).

(** The world after the callback has been invoked on an event: the
    invocation is recorded, the callback's state moves on, and what it
    throws ends up on the console. *)
Definition deliver (type : jsval) (event : json) (w : World) : World :=
  let '(r, cb) := onEvent type event (callback w) in
  mk_world (requests w) (reads w) (calls w ++ [(type, event)])
    (match r with
     | None => console w
     | Some e => console w ++ [("Failed to parse SSE event:"%string, e)]
     end) cb.

(** The world the [for] loop leaves behind. *)
Definition line_effect (line : text) (w : World) : World :=
  snd (handle_line line w).

Definition lines_effect (lines : list text) (w : World) : World :=
  fold_left (fun w line => line_effect line w) lines w.

End Client.

Arguments World CB : clear implicits.
Arguments M CB A : clear implicits.

(** ** A concrete caller and server, for running the client *)

(** A callback that returns normally and keeps no state. *)
Definition silent : jsval -> json -> unit -> option exn * unit :=
  fun _ _ cb => (None, cb).

(** A callback that throws on every event. *)
Definition throwing : jsval -> json -> unit -> option exn * unit :=
  fun _ _ cb => (Some (Foreign "callback"), cb).

(** A server that answers every request with the same response. *)
Definition serve (response : Response) : Request -> Result Response :=
  fun _ => Ok response.

(** A successful response whose body arrives as the given chunks. *)
Definition streaming (cs : list bytes) : Response :=
  mk_response true (Some (mk_body cs None)).

Definition fresh : World unit := mk_world [] 0 [] [] tt.

(** [sendMessageStream("c1", "hi", onEvent)] against a server that streams
    [cs], in a development build, from a fresh world. *)
Definition run_stream (cs : list bytes) : Result unit * World unit :=
  sendMessageStream silent Json.parse Json.stringify (serve (streaming cs))
    None false (str "c1") (str "hi") None fresh.

(** The type tags of the events a run delivered, in order. *)
Definition delivered (r : Result unit * World unit) : list (jsval * json) :=
  calls (snd r).


(** *** Sample streams *)

Definition LF : bytes := [Byte.x0a].

Definition payload_a : text := jtext "{'type':'a'}".
Definition payload_b : text := jtext "{'type':'b'}".
Definition payload_c : text := jtext "{'type':'c'}".

Definition event_a : json := JObj [(str "type", JStr (str "a"))].
Definition event_b : json := JObj [(str "type", JStr (str "b"))].
Definition event_c : json := JObj [(str "type", JStr (str "c"))].

(** Two records, one per chunk. *)
Definition sample_whole : list bytes :=
  [jwire "data: {'type':'a'}" ++ LF; jwire "data: {'type':'b'}" ++ LF].

(** The same two records cut inside the first and inside the prefix of the
    second. *)
Definition sample_split : list bytes :=
  [jwire "data: {'typ"; jwire "e':'a'}" ++ LF ++ wire "da";
   jwire "ta: {'type':'b'}" ++ LF].

(** One record without its trailing newline. *)
Definition sample_unterminated : list bytes :=
  [jwire "data: {'type':'c'}"].

(** A record whose payload is the JSON value [null]. *)
Definition sample_null : list bytes := [wire "data: null" ++ LF].


(** A comment line, a record that does not parse, and a good record. *)
Definition sample_mixed : list bytes :=
  [wire ": ping" ++ LF ++ wire "data: {oops" ++ LF;
   jwire "data: {'type':'a'}" ++ LF].






(** The record [data: {"type":"é"}] cut between the two bytes of [é]. *)
Definition sample_multibyte : list bytes :=
  [jwire "data: {'type':'" ++ [Byte.xc3];
   [Byte.xa9] ++ jwire "'}" ++ LF].



(** *** The request and the failure of each operation *)

Section Requests.

Variable JSON_stringify : json -> text.
Variable VITE_API_BASE : option text.
Variable PROD : bool.

(** The URL and [init] each operation hands to [fetch]. *)
Definition request_for (op : Operation) (sharedSecret : option text) : Request :=
  match op with
  | ListConversations =>
      mk_request (API_BASE VITE_API_BASE PROD ++ str "/api/conversations")
        None (getHeaders sharedSecret) None
  | CreateConversation =>
      mk_request (API_BASE VITE_API_BASE PROD ++ str "/api/conversations")
        (Some "POST"%string) (getHeaders sharedSecret)
        (Some (JSON_stringify (JObj [])))
  | GetConversation conversationId =>
      mk_request
        (API_BASE VITE_API_BASE PROD ++ str "/api/conversations/" ++ conversationId)
        None (getHeaders sharedSecret) None
  | SendMessage conversationId content =>
      mk_request
        (API_BASE VITE_API_BASE PROD ++ str "/api/conversations/" ++ conversationId
           ++ str "/message")
        (Some "POST"%string) (getHeaders sharedSecret)
        (Some (JSON_stringify (JObj [(str "content", JStr content)])))
  | SendMessageStream conversationId content =>
      stream_request JSON_stringify VITE_API_BASE PROD conversationId content
        sharedSecret
  end.

End Requests.

(** The message of the [Error] each operation throws on a response whose
    status is not a success. *)
Definition failure_message (op : Operation) : string :=
  match op with
  | ListConversations => "Failed to list conversations"
  | CreateConversation => "Failed to create conversation"
  | GetConversation _ => "Failed to get conversation"
  | SendMessage _ _ => "Failed to send message"
  | SendMessageStream _ _ => "Failed to send message"
  end.

(** The segments that start with the event prefix. *)
Definition data_lines (lines : list text) : list text :=
  List.filter (startsWith (str "data: ")) lines.

(** The number of line separators in a text. *)
Definition newlines (t : text) : nat := length (List.filter (N.eqb NL) t).

(** How the streaming operation settles on a response with a success
    status: as the end of the body says, or, when there is no body, with the
    [TypeError] of asking [null] for a reader. *)
Definition stream_outcome (response : Response) : Result unit :=
  match body_stream response with
  | Some reader => settle (ending reader)
  | None => Throw TypeError
  end.

(** The reads it performs there: one per chunk and the one that finds the
    end, or none at all when there is no body. *)
Definition stream_reads (response : Response) : nat :=
  match body_stream response with
  | Some reader => (length (chunks reader) + 1)%nat
  | None => 0%nat
  end.

(** A successful response without a body. *)
Definition bodiless : Response := mk_response true None.

(** A response that streams [cs] and then fails a read with [e]. *)
Definition breaking (cs : list bytes) (e : exn) : Response :=
  mk_response true (Some (mk_body cs (Some e))).

(** The states the decoder can be in while a sequence is open: the bounds
    for the next byte lie among the continuation bytes, and the bits
    gathered so far are not all zero unless the lower bound excludes the
    over-long forms. *)
Definition decoder_invariant (st : Utf8.state) : Prop :=
  Utf8.bytes_needed st = 0 \/
  (Utf8.bytes_seen st < Utf8.bytes_needed st /\
   0x80 <= Utf8.lower_boundary st /\
   Utf8.upper_boundary st <= 0xBF /\
   (Utf8.code_point st = 0 ->
    Utf8.bytes_seen st + 1 < Utf8.bytes_needed st /\
    0x90 <= Utf8.lower_boundary st)).

(** The bytes of the 7-bit range. *)
Definition ascii_only (value : bytes) : Prop :=
  Forall (fun b => Byte.to_N b < 0x80) value.

(** The number of line feed bytes in a chunk. *)
Definition line_feeds (value : bytes) : nat :=
  length (List.filter (fun b => Byte.to_N b =? NL) value).

(** * Properties *)

Arguments str : simpl never.
Arguments wire : simpl never.
Arguments jtext : simpl never.
Arguments jwire : simpl never.
Arguments Utf8.decode : simpl never.
Arguments record : simpl never.

(** ** Running the model on small inputs *)

Example decode_ascii : Utf8.decode (wire "data: x") = str "data: x".
Proof. reflexivity. Qed.

Example decode_bom :
  Utf8.decode [Byte.xef; Byte.xbb; Byte.xbf; Byte.x41] = [0x41].
Proof. reflexivity. Qed.

Example decode_astral :
  Utf8.decode [Byte.xf0; Byte.x9f; Byte.x98; Byte.x80] = [0xD83D; 0xDE00].
Proof. reflexivity. Qed.

Example decode_truncated : Utf8.decode [Byte.xe2; Byte.x82] = [0xFFFD].
Proof. reflexivity. Qed.

Example split_example :
  split NL (str "a" ++ [NL] ++ str "bc" ++ [NL]) = [str "a"; str "bc"; []].
Proof. reflexivity. Qed.

Example parse_object :
  Json.parse (jtext "{'type':'a'}") = Some (JObj [(str "type", JStr (str "a"))]).
Proof. reflexivity. Qed.

Example parse_truncated : Json.parse (jtext "{'typ") = None.
Proof. reflexivity. Qed.

Example parse_trailing_comma : Json.parse (jtext "{'a':1,}") = None.
Proof. reflexivity. Qed.

Example stringify_content :
  Json.stringify (JObj [(str "content", JStr (jtext "a'b"))])
  = jtext "{'content':'a\'b'}".
Proof. reflexivity. Qed.

(** The spec's example, cut as there: nothing reaches the callback, and the
    first chunk is reported as a record that does not parse. *)
Example run_sample_split :
  run_stream sample_split
  = (Ok tt,
     mk_world [stream_request Json.stringify None false (str "c1") (str "hi") None]
       4 [] [("Failed to parse SSE event:"%string, SyntaxError)] tt).
Proof. by vm_compute. Qed.

Example run_sample_whole :
  delivered (run_stream sample_whole)
  = [(Some (JStr (str "a")), event_a); (Some (JStr (str "b")), event_b)].
Proof. by vm_compute. Qed.

(** The payload [null] parses, and reading its [type] throws. *)
Example run_sample_null :
  run_stream sample_null
  = (Ok tt,
     mk_world [stream_request Json.stringify None false (str "c1") (str "hi") None]
       2 [] [("Failed to parse SSE event:"%string, TypeError)] tt).
Proof. by vm_compute. Qed.

(** A callback that throws has been invoked; what it throws is caught by
    the same handler. *)
Example run_throwing_callback :
  read_loop throwing Json.parse sample_whole None fresh
  = (Ok tt,
     mk_world [] 3
       [(Some (JStr (str "a")), event_a); (Some (JStr (str "b")), event_b)]
       [("Failed to parse SSE event:"%string, Foreign "callback");
        ("Failed to parse SSE event:"%string, Foreign "callback")] tt).
Proof. by vm_compute. Qed.

(** A read that fails rejects the operation after the chunks before it
    have been handled. *)
Example run_failing_read :
  read_loop silent Json.parse sample_whole (Some (Foreign "network")) fresh
  = (Throw (Foreign "network"),
     mk_world [] 3
       [(Some (JStr (str "a")), event_a); (Some (JStr (str "b")), event_b)]
       [] tt).
Proof. by vm_compute. Qed.

(** A successful response without a body: asking [null] for a reader
    throws before anything is read. *)
Example run_bodiless :
  sendMessageStream silent Json.parse Json.stringify (serve bodiless)
    None false (str "c1") (str "hi") None fresh
  = (Throw TypeError,
     mk_world [stream_request Json.stringify None false (str "c1") (str "hi") None]
       0 [] [] tt).
Proof. by vm_compute. Qed.

Example headers_with_secret :
  getHeaders (Some (str "s3")) !! "X-Shared-Secret"%string = Some (str "s3")
  /\ getHeaders (Some []) !! "X-Shared-Secret"%string = None
  /\ getHeaders None !! "X-Shared-Secret"%string = None.
Proof. by vm_compute. Qed.

(** ** Strings *)

Lemma split_nonempty sep s : split sep s <> [].
Proof.
  destruct s as [|c r]; simpl; [discriminate|].
  destruct (c =? sep); [discriminate|].
  destruct (split sep r); discriminate.
Qed.

(** Splitting distributes over a separator. *)
Lemma split_app_sep sep a b :
  split sep (a ++ sep :: b) = split sep a ++ split sep b.
Proof.
  induction a as [|c a IH]; simpl.
  - rewrite N.eqb_refl. reflexivity.
  - destruct (c =? sep); [by rewrite IH|].
    rewrite IH. pose proof (split_nonempty sep a) as Hne.
    destruct (split sep a); [done|reflexivity].
Qed.

Lemma split_no_sep sep l : sep ∉ l -> split sep l = [l].
Proof.
  induction l as [|c l IH]; intros Hn; simpl; [reflexivity|].
  apply not_elem_of_cons in Hn as [Hc Hl].
  destruct (N.eqb_spec c sep) as [->|_]; [done|].
  by rewrite IH.
Qed.

Lemma split_line sep l t :
  sep ∉ l -> split sep (l ++ sep :: t) = l :: split sep t.
Proof. intros Hn. by rewrite split_app_sep, split_no_sep. Qed.

(** Splitting a concatenation: the segments of the first part but the last,
    then the segments of what the last one and the second part make. *)
Lemma split_app sep a b :
  split sep (a ++ b)
  = removelast (split sep a) ++ split sep (List.last (split sep a) [] ++ b).
Proof.
  induction a as [|c a IH]; [reflexivity|].
  pose proof (split_nonempty sep a) as Hne.
  cbn [app split]. destruct (c =? sep) eqn:Hc.
  - rewrite IH. destruct (split sep a) as [|l ls]; [done|reflexivity].
  - rewrite IH. destruct (split sep a) as [|l [|l2 ls]]; [done| |reflexivity].
    cbn. by rewrite Hc.
Qed.

(** The last segment holds no separator. *)
Lemma last_split_no_sep sep s : sep ∉ List.last (split sep s) [].
Proof.
  induction s as [|c s IH]; cbn [split]; [by apply not_elem_of_nil|].
  pose proof (split_nonempty sep s) as Hne.
  destruct (N.eqb_spec c sep) as [->|Hc].
  - destruct (split sep s) as [|l ls]; [done|exact IH].
  - destruct (split sep s) as [|l [|l2 ls]]; [done| |exact IH].
    cbn in *. by apply not_elem_of_cons.
Qed.

Lemma removelast_app_nonempty {A} (x y : list A) :
  y <> [] -> removelast (x ++ y) = x ++ removelast y.
Proof. intros. by apply removelast_app. Qed.

Lemma last_app_nonempty {A} (x y : list A) d :
  y <> [] -> List.last (x ++ y) d = List.last y d.
Proof.
  intros Hy. induction x as [|a x IH]; [reflexivity|].
  cbn. destruct (x ++ y) eqn:E; [|exact IH].
  by apply app_eq_nil in E as [_ ->].
Qed.

Lemma startsWith_app p x : startsWith p (p ++ x) = true.
Proof. induction p as [|a p IH]; simpl; [done|]. by rewrite N.eqb_refl. Qed.

Lemma startsWith_inv p s :
  startsWith p s = true -> s = p ++ slice (length p) s.
Proof.
  revert s. induction p as [|a p IH]; intros s H; [reflexivity|].
  destruct s as [|b s]; [discriminate|]. simpl in H.
  apply andb_prop in H as [->%N.eqb_eq H]. simpl. f_equal. by apply IH.
Qed.

Lemma startsWith_nil_r p : p <> [] -> startsWith p [] = false.
Proof. by destruct p. Qed.

Lemma slice_prefix p x : slice (length p) (p ++ x) = x.
Proof. unfold slice. by rewrite drop_app_length. Qed.

(** ** The read loop *)

Section Properties.

Context {CB : Type}.
Variable onEvent : jsval -> json -> CB -> option exn * CB.
Variable JSON_parse : text -> option json.
Variable JSON_stringify : json -> text.
Variable network : Request -> Result Response.
Variable VITE_API_BASE : option text.
Variable PROD : bool.

Local Abbreviation handle := (handle_line onEvent JSON_parse).
Local Abbreviation effect := (line_effect onEvent JSON_parse).
Local Abbreviation effects := (lines_effect onEvent JSON_parse).
Local Abbreviation loop := (read_loop onEvent JSON_parse).
Local Abbreviation stream_op :=
  (sendMessageStream onEvent JSON_parse JSON_stringify network VITE_API_BASE PROD).
Local Abbreviation request_of :=
  (stream_request JSON_stringify VITE_API_BASE PROD).
Local Abbreviation run_op :=
  (perform onEvent JSON_parse JSON_stringify network VITE_API_BASE PROD).

Implicit Types (w : World CB) (line p : text) (cs : list bytes).

Lemma data_prefix p : startsWith (str "data: ") (str "data: " ++ p) = true.
Proof. apply startsWith_app. Qed.

Lemma data_payload p : slice 6 (str "data: " ++ p) = p.
Proof. reflexivity. Qed.

(** A segment without the prefix leaves the world as it is. *)
Lemma handle_line_plain line w :
  startsWith (str "data: ") line = false -> handle line w = (Ok tt, w).
Proof. intros H. unfold handle_line. by rewrite H. Qed.

(** A payload that does not parse is reported on the console. *)
Lemma handle_line_malformed p w :
  JSON_parse p = None ->
  handle (str "data: " ++ p) w = (Ok tt, logged SyntaxError w).
Proof.
  intros H. unfold handle_line. rewrite data_prefix, data_payload.
  unfold try_catch, bind, parse. by rewrite H.
Qed.

(** The payload [null] parses, but reading its [type] throws inside the
    [try] block. *)
Lemma handle_line_null p v w :
  JSON_parse p = Some v -> type_of v = None ->
  handle (str "data: " ++ p) w = (Ok tt, logged TypeError w).
Proof.
  intros H Ht. unfold handle_line. rewrite data_prefix, data_payload.
  unfold try_catch, bind, parse, get_type.
  rewrite H. simpl. by rewrite Ht.
Qed.

(** A payload that parses to a value with a readable [type] reaches the
    callback. *)
Lemma handle_line_event p v t w :
  JSON_parse p = Some v -> type_of v = Some t ->
  handle (str "data: " ++ p) w = (Ok tt, deliver onEvent t v w).
Proof.
  intros H Ht. unfold handle_line. rewrite data_prefix, data_payload.
  unfold try_catch, bind, parse, get_type, invoke, deliver, ret.
  rewrite H. simpl. rewrite Ht. simpl.
  destruct (onEvent t v (callback w)) as [[e|] cb]; reflexivity.
Qed.

(** Every segment is one of the four cases above. *)
Lemma line_cases line :
  (startsWith (str "data: ") line = false)
  \/ exists p, line = str "data: " ++ p /\
       (JSON_parse p = None
        \/ (exists v, JSON_parse p = Some v /\ type_of v = None)
        \/ (exists v t, JSON_parse p = Some v /\ type_of v = Some t)).
Proof.
  destruct (startsWith (str "data: ") line) eqn:Hs; [right|by left].
  exists (slice 6 line). split.
  - apply (startsWith_inv _ _ Hs).
  - destruct (JSON_parse (slice 6 line)) as [v|]; [|by left].
    right. destruct (type_of v) as [t|] eqn:Ht; [right|left]; eauto.
Qed.

(** The body of the [for] loop never throws. *)
Lemma handle_line_total line w : handle line w = (Ok tt, effect line w).
Proof.
  unfold line_effect.
  destruct (line_cases line) as [H|(p & -> & [H|[(v & H & Ht)|(v & t & H & Ht)]])].
  - by rewrite handle_line_plain.
  - by rewrite handle_line_malformed.
  - by rewrite (handle_line_null _ _ _ H Ht).
  - by rewrite (handle_line_event _ _ _ _ H Ht).
Qed.

Lemma for_of_handle (lines : list text) w :
  for_of lines handle w = (Ok tt, effects lines w).
Proof.
  revert w. induction lines as [|l ls IH]; intros w; simpl; [reflexivity|].
  unfold bind. rewrite handle_line_total. apply IH.
Qed.

Lemma effects_app (a b : list text) w :
  effects (a ++ b) w = effects b (effects a w).
Proof. apply fold_left_app. Qed.

Lemma effects_cons line (ls : list text) w :
  effects (line :: ls) w = effects ls (effect line w).
Proof. reflexivity. Qed.

(** What a segment does to the record of invocations depends on the
    segment alone. *)
Lemma calls_effect line w :
  calls (effect line w) = calls w ++ option_list (event_of JSON_parse line).
Proof.
  unfold line_effect, event_of.
  destruct (line_cases line) as [H|(p & -> & [H|[(v & H & Ht)|(v & t & H & Ht)]])].
  - rewrite handle_line_plain, H by done. simpl. by rewrite app_nil_r.
  - rewrite handle_line_malformed, data_prefix, data_payload, H by done.
    simpl. by rewrite app_nil_r.
  - rewrite (handle_line_null _ _ _ H Ht), data_prefix, data_payload, H.
    simpl. rewrite Ht. simpl. by rewrite app_nil_r.
  - rewrite (handle_line_event _ _ _ _ H Ht), data_prefix, data_payload, H.
    simpl. rewrite Ht. simpl. unfold deliver.
    by destruct (onEvent t v (callback w)) as [[e|] cb].
Qed.

Lemma calls_effects (lines : list text) w :
  calls (effects lines w) = calls w ++ events JSON_parse lines.
Proof.
  revert w. induction lines as [|l ls IH]; intros w.
  - simpl. by rewrite app_nil_r.
  - rewrite effects_cons, IH, calls_effect. unfold events at 2. simpl.
    fold (events JSON_parse ls).
    destruct (event_of JSON_parse l); simpl; by rewrite <- app_assoc.
Qed.

Lemma events_app (a b : list text) :
  events JSON_parse (a ++ b) = events JSON_parse a ++ events JSON_parse b.
Proof. apply omap_app. Qed.

(** Handling a segment neither issues requests nor reads the body. *)
Lemma effect_frame line w :
  requests (effect line w) = requests w /\ reads (effect line w) = reads w.
Proof.
  unfold line_effect.
  destruct (line_cases line) as [H|(p & -> & [H|[(v & H & Ht)|(v & t & H & Ht)]])].
  - by rewrite handle_line_plain.
  - by rewrite handle_line_malformed.
  - by rewrite (handle_line_null _ _ _ H Ht).
  - rewrite (handle_line_event _ _ _ _ H Ht). simpl. unfold deliver.
    by destruct (onEvent t v (callback w)) as [[e|] cb].
Qed.

Lemma effects_frame (lines : list text) w :
  requests (effects lines w) = requests w /\ reads (effects lines w) = reads w.
Proof.
  revert w. induction lines as [|l ls IH]; intros w; [done|].
  rewrite effects_cons. destruct (IH (effect l w)) as [-> ->].
  apply effect_frame.
Qed.

(** Counting a read commutes with handling a segment. *)
Lemma effect_bump n line w : effect line (bump n w) = bump n (effect line w).
Proof.
  unfold line_effect.
  destruct (line_cases line) as [H|(p & -> & [H|[(v & H & Ht)|(v & t & H & Ht)]])].
  - by rewrite !handle_line_plain.
  - by rewrite !handle_line_malformed.
  - by rewrite !(handle_line_null _ _ _ H Ht).
  - rewrite !(handle_line_event _ _ _ _ H Ht). simpl. unfold deliver, bump.
    simpl. by destruct (onEvent t v (callback w)) as [[e|] cb].
Qed.

Lemma effects_bump n (lines : list text) w :
  effects lines (bump n w) = bump n (effects lines w).
Proof.
  revert w. induction lines as [|l ls IH]; intros w; [done|].
  by rewrite !effects_cons, effect_bump, IH.
Qed.

Lemma bump_bump n m w : bump n (bump m w) = bump (n + m) w.
Proof. unfold bump. simpl. f_equal. lia. Qed.

(** The read loop in one step: it visits the segments of every chunk in
    order, performs one read per chunk and one more that finds the end,
    and settles as the end of the body says. *)
Lemma read_loop_run cs fin w :
  loop cs fin w
  = (settle fin, bump (Datatypes.S (length cs)) (effects (lines_of cs) w)).
Proof.
  revert w. induction cs as [|c cs IH]; intros w.
  - simpl. unfold bind, read_tick. simpl. by destruct fin.
  - simpl. unfold bind at 1. unfold read_tick at 1.
    unfold bind at 1. unfold handle_chunk. rewrite for_of_handle.
    rewrite IH. f_equal.
    change (mk_world (requests w) (Datatypes.S (reads w)) (calls w)
              (console w) (callback w)) with (bump 1 w).
    rewrite effects_app, !effects_bump, bump_bump. f_equal. lia.
Qed.

Lemma stream_op_unfold id content secret w :
  stream_op id content secret w
  = match network (request_of id content secret) with
    | Ok response =>
        if negb (ok response) then
          (Throw (Error "Failed to send message"),
           sent (request_of id content secret) w)
        else
          match body_stream response with
          | None => (Throw TypeError, sent (request_of id content secret) w)
          | Some reader =>
              loop (chunks reader) (ending reader)
                (sent (request_of id content secret) w)
          end
    | Throw e => (Throw e, sent (request_of id content secret) w)
    end.
Proof.
  unfold sendMessageStream, bind, fetch. fold (request_of id content secret).
  destruct (network (request_of id content secret)) as [r|e]; [|reflexivity].
  destruct (ok r); [|reflexivity]. by destruct (body_stream r).
Qed.

(** A successful response without a body: [response.body] is [null] and
    asking it for a reader throws. *)
Lemma stream_op_no_body id content secret response w :
  network (request_of id content secret) = Ok response ->
  ok response = true ->
  body_stream response = None ->
  stream_op id content secret w
  = (Throw TypeError, sent (request_of id content secret) w).
Proof. intros Hn Hok Hb. by rewrite stream_op_unfold, Hn, Hok, Hb. Qed.

(** The streaming operation on a successful response that has a body. *)
Lemma stream_op_run id content secret response w :
  network (request_of id content secret) = Ok response ->
  ok response = true ->
  body_stream response <> None ->
  stream_op id content secret w
  = (settle (ending (stream response)),
     bump (Datatypes.S (length (chunks (stream response))))
       (effects (lines_of (chunks (stream response)))
          (sent (request_of id content secret) w))).
Proof.
  intros Hn Hok Hb. rewrite stream_op_unfold, Hn, Hok. unfold stream.
  destruct (body_stream response) as [b|]; [|done]. simpl.
  apply read_loop_run.
Qed.

Lemma stream_op_calls id content secret response w :
  network (request_of id content secret) = Ok response ->
  ok response = true ->
  calls (snd (stream_op id content secret w))
  = calls w ++ events JSON_parse (lines_of (chunks (stream response))).
Proof.
  intros Hn Hok. destruct (body_stream response) as [b|] eqn:Hb.
  - rewrite (stream_op_run _ _ _ _ _ Hn Hok) by (by rewrite Hb). simpl.
    by rewrite calls_effects.
  - rewrite (stream_op_no_body _ _ _ _ _ Hn Hok Hb). unfold stream.
    rewrite Hb. simpl. by rewrite app_nil_r.
Qed.

(** ** Whole records inside one chunk *)

Lemma NL_not_in_prefix : NL ∉ str "data: ".
Proof. apply (bool_decide_unpack _). by vm_compute. Qed.

Lemma split_records (g : list text) :
  Forall (fun p => NL ∉ p) g ->
  split NL (concat (record <$> g)) = ((fun p => str "data: " ++ p) <$> g) ++ [[]].
Proof.
  induction 1 as [|p g Hp _ IH]; [reflexivity|].
  change (concat (record <$> p :: g))
    with (record p ++ concat (record <$> g)).
  rewrite fmap_cons. unfold record at 1.
  replace ((str "data: " ++ p ++ [NL]) ++ concat (record <$> g))
    with ((str "data: " ++ p) ++ NL :: concat (record <$> g))
    by (by rewrite <- !app_assoc).
  rewrite split_line, IH; [reflexivity|].
  rewrite elem_of_app. intros [H|H]; [by apply NL_not_in_prefix|done].
Qed.

Lemma event_of_nil : event_of JSON_parse [] = None.
Proof. reflexivity. Qed.

Lemma event_of_data p :
  event_of JSON_parse (str "data: " ++ p)
  = (v ← JSON_parse p; t ← type_of v; Some (t, v)).
Proof. unfold event_of. by rewrite data_prefix, data_payload. Qed.

Lemma type_of_defined v : v <> JNull -> exists t, type_of v = Some t.
Proof. destruct v; simpl; eauto. done. Qed.

(** The events of a run of well-formed records: one per record. *)
Lemma events_records (ps : list text) :
  Forall (fun p => (NL ∉ p) /\ exists v, JSON_parse p = Some v /\ v <> JNull) ps ->
  exists evs,
    events JSON_parse ((fun p => str "data: " ++ p) <$> ps) = evs /\
    Forall2 (fun p ev => JSON_parse p = Some ev.2 /\ type_of ev.2 = Some ev.1)
      ps evs.
Proof.
  induction 1 as [|p ps (Hp & v & Hv & Hnn) _ (evs & IH & HF)].
  - exists []. by split; [|constructor].
  - destruct (type_of_defined v Hnn) as [t Ht].
    exists ((t, v) :: evs). split; [|by constructor].
    rewrite fmap_cons. unfold events in *. cbn.
    rewrite event_of_data, Hv. cbn. rewrite Ht. cbn.
    f_equal. exact IH.
Qed.

Lemma events_aligned cs (groups : list (list text)) :
  Forall2 (fun c g => Utf8.decode c = concat (record <$> g)) cs groups ->
  Forall (fun p => NL ∉ p) (concat groups) ->
  events JSON_parse (lines_of cs)
  = events JSON_parse ((fun p => str "data: " ++ p) <$> concat groups).
Proof.
  induction 1 as [|c g cs groups Hc _ IH]; intros Hnl; [reflexivity|].
  cbn in Hnl. apply Forall_app in Hnl as [Hg Hrest].
  change (lines_of (c :: cs))
    with (split NL (Utf8.decode c) ++ lines_of cs).
  change (concat (g :: groups)) with (g ++ concat groups).
  rewrite Hc, split_records, fmap_app, !events_app, IH by done.
  unfold events at 2. cbn. by rewrite app_nil_r.
Qed.

(** C1 (amended).  When every chunk decodes to a run of whole records, each
    of them [data: ], a payload without a newline that parses to a JSON
    value other than [null], and a newline, so that chunk boundaries fall
    only right after a record's newline, [sendMessageStream] resolves
    normally and invokes the callback exactly once per record, in the order
    of the records, each time with the [type] of the parsed value and the
    value itself. *)
Theorem C1_whole_records_in_order id content secret cs
    (groups : list (list text)) w :
  network (request_of id content secret) = Ok (streaming cs) ->
  Forall2 (fun c g => Utf8.decode c = concat (record <$> g)) cs groups ->
  Forall (fun p => (NL ∉ p) /\ exists v, JSON_parse p = Some v /\ v <> JNull)
    (concat groups) ->
  exists w' evs,
    stream_op id content secret w = (Ok tt, w') /\
    calls w' = calls w ++ evs /\
    length evs = length (concat groups) /\
    Forall2 (fun p ev => JSON_parse p = Some ev.2 /\ type_of ev.2 = Some ev.1)
      (concat groups) evs.
Proof.
  intros Hn Hcs Hps.
  destruct (events_records _ Hps) as (evs & Hev & HF).
  eexists _, evs. split; [by apply (stream_op_run _ _ _ _ w Hn eq_refl)|].
  split; [|split; [symmetry; eapply Forall2_length; exact HF|exact HF]].
  simpl. rewrite calls_effects. simpl. f_equal.
  rewrite <- Hev. apply events_aligned; [done|].
  eapply Forall_impl; [exact Hps|]. by intros ? [? _].
Qed.

(** ** Single records in the stream *)

(** The invocations of a run in which one segment [x] stands between the
    segments [l1] and [l2]. *)
Lemma stream_op_around id content secret response (l1 l2 : list text) x w :
  network (request_of id content secret) = Ok response ->
  ok response = true ->
  body_stream response <> None ->
  lines_of (chunks (stream response)) = l1 ++ x :: l2 ->
  exists w',
    stream_op id content secret w = (settle (ending (stream response)), w') /\
    calls w' = calls w ++ events JSON_parse l1
                 ++ option_list (event_of JSON_parse x)
                 ++ events JSON_parse l2.
Proof.
  intros Hn Hok Hb Hl. eexists.
  split; [apply (stream_op_run _ _ _ _ w Hn Hok Hb)|].
  cbn. rewrite calls_effects, Hl. cbn. f_equal.
  rewrite events_app. f_equal. unfold events. cbn.
  by destruct (event_of JSON_parse x).
Qed.

(** C3 (amended).  A final record that lacks its trailing newline and lies
    wholly inside the last chunk (the chunk's text ends with [data: ] and a
    payload, at the start of the chunk or right after a newline) is parsed
    when that chunk is handled, like any other segment: if its payload
    parses to a value whose [type] can be read, the callback is invoked with
    it, as the last invocation of the run.  Nothing is held back for the end
    of the data. *)
Theorem C3_unterminated_final_record_is_delivered id content secret cs c
    (pre : text) p v t w :
  network (request_of id content secret) = Ok (streaming (cs ++ [c])) ->
  Utf8.decode c = pre ++ str "data: " ++ p ->
  pre = [] \/ (exists pre', pre = pre' ++ [NL]) ->
  NL ∉ p ->
  JSON_parse p = Some v ->
  type_of v = Some t ->
  exists w' earlier,
    stream_op id content secret w = (Ok tt, w') /\
    calls w' = calls w ++ earlier ++ [(t, v)].
Proof.
  intros Hn Hc Hpre Hp Hv Ht.
  assert (exists ls, split NL (Utf8.decode c) = ls ++ [str "data: " ++ p])
    as [ls Hls].
  { assert (NL ∉ str "data: " ++ p) as Hnl.
    { rewrite elem_of_app. intros [H|H]; [by apply NL_not_in_prefix|done]. }
    rewrite Hc. destruct Hpre as [->|[pre' ->]].
    - exists []. by rewrite split_no_sep.
    - exists (split NL pre'). rewrite <- app_assoc.
      change ([NL] ++ str "data: " ++ p) with (NL :: (str "data: " ++ p)).
      by rewrite split_app_sep, (split_no_sep _ _ Hnl). }
  destruct (stream_op_around id content secret (streaming (cs ++ [c]))
              (lines_of cs ++ ls) [] (str "data: " ++ p) w Hn eq_refl)
    as (w' & Hrun & Hcalls); [done| |].
  { cbn. unfold lines_of. rewrite flat_map_app. cbn.
    by rewrite Hls, app_nil_r, <- app_assoc. }
  exists w', (events JSON_parse (lines_of cs ++ ls)).
  split; [exact Hrun|].
  rewrite Hcalls, event_of_data, Hv. cbn. rewrite Ht. reflexivity.
Qed.

(** ** Whole records of any kind *)










(** C6.  When the response to the streaming POST has a non-success status
    the operation throws its [Error], and the world differs from the one
    before the call by that one request only: the body has not been read and
    the callback has not been invoked. *)
Theorem C6_failed_status_reads_nothing id content secret response w :
  network (request_of id content secret) = Ok response ->
  ok response = false ->
  stream_op id content secret w
  = (Throw (Error "Failed to send message"),
     sent (request_of id content secret) w) /\
  reads (snd (stream_op id content secret w)) = reads w /\
  calls (snd (stream_op id content secret w)) = calls w.
Proof.
  intros Hn Hok. rewrite stream_op_unfold, Hn, Hok. by cbn.
Qed.

(** ** The code against the buffered reference *)






(** The reference consumer does what the design document asks of it,
    however the chunks are cut: its buffer is the text after the last
    newline seen, and the records it handles are the complete lines of the
    concatenated text. *)
Lemma pending_is_open_line cs (buffer : text) :
  NL ∉ buffer ->
  pending buffer cs
  = List.last (split NL (buffer ++ concat (map Utf8.decode cs))) [].
Proof.
  revert buffer. induction cs as [|c cs IH]; intros buffer Hb.
  - cbn. by rewrite app_nil_r, split_no_sep.
  - cbn [pending map concat]. rewrite IH by apply last_split_no_sep.
    rewrite (app_assoc buffer), (split_app NL (buffer ++ Utf8.decode c)).
    by rewrite last_app_nonempty by apply split_nonempty.
Qed.

Lemma buffered_loop_run cs fin (buffer : text) w :
  NL ∉ buffer ->
  buffered_loop onEvent JSON_parse buffer cs fin w
  = (settle fin,
     bump (Datatypes.S (length cs))
       (effects (removelast (split NL (buffer ++ concat (map Utf8.decode cs))))
          w)).
Proof.
  revert buffer w. induction cs as [|c cs IH]; intros buffer w Hb.
  - cbn [buffered_loop map concat length]. rewrite app_nil_r, split_no_sep by done.
    unfold bind, read_tick. cbn. by destruct fin.
  - cbn [buffered_loop map concat length]. unfold bind at 1.
    unfold read_tick at 1. cbv zeta. unfold bind at 1.
    rewrite for_of_handle, IH by apply last_split_no_sep. f_equal.
    change (mk_world (requests w) (Datatypes.S (reads w)) (calls w)
              (console w) (callback w)) with (bump 1 w).
    rewrite (app_assoc buffer), (split_app NL (buffer ++ Utf8.decode c)).
    rewrite removelast_app_nonempty by apply split_nonempty.
    rewrite effects_app, !effects_bump, bump_bump. f_equal. lia.
Qed.

(** So the reference consumer delivers every whole record wherever the
    chunk boundaries fall in the decoded text. *)
Lemma buffered_loop_delivers_all cs (ps : list text) w :
  concat (map Utf8.decode cs) = concat (record <$> ps) ->
  Forall (fun p => (NL ∉ p) /\ exists v, JSON_parse p = Some v /\ v <> JNull) ps ->
  exists evs,
    calls (snd (buffered_loop onEvent JSON_parse [] cs None w)) = calls w ++ evs /\
    Forall2 (fun p ev => JSON_parse p = Some ev.2 /\ type_of ev.2 = Some ev.1)
      ps evs.
Proof.
  intros Htext Hps. destruct (events_records _ Hps) as (evs & Hev & HF).
  exists evs. split; [|exact HF].
  rewrite buffered_loop_run by apply not_elem_of_nil. cbn [snd app].
  rewrite Htext, split_records, removelast_last.
  - cbn. by rewrite calls_effects, Hev.
  - eapply Forall_impl; [exact Hps|]. by intros ? [? _].
Qed.


(** ** Request headers *)

Lemma getHeaders_content_type secret :
  getHeaders secret !! "Content-Type"%string = Some (str "application/json").
Proof.
  unfold getHeaders. destruct secret as [[|c r]|].
  - apply lookup_singleton_eq.
  - rewrite lookup_insert_ne by done. apply lookup_singleton_eq.
  - apply lookup_singleton_eq.
Qed.

Lemma getHeaders_secret secret s :
  getHeaders secret !! "X-Shared-Secret"%string = Some s
  <-> secret = Some s /\ s <> [].
Proof.
  unfold getHeaders. destruct secret as [[|c r]|].
  - rewrite lookup_singleton_ne by done. split; [done|].
    intros [[= <-] Hne]. done.
  - rewrite lookup_insert_eq. split.
    + intros [= <-]. done.
    + intros [[= <-] _]. done.
  - rewrite lookup_singleton_ne by done. split; [done|]. intros [[=] _].
Qed.

(** A request/response exchange issues its one request whatever the
    outcome. *)
Lemma exchange_requests req (message : string) w :
  requests
    (snd (bind (bind (fetch network req)
                  (fun response =>
                     if negb (ok response) then throw (Error message)
                     else response_json JSON_parse response))
            (fun _ => ret tt) w))
  = requests w ++ [req].
Proof.
  unfold bind, fetch. destruct (network req) as [r|e]; [|reflexivity].
  destruct (ok r); cbn; [|reflexivity].
  unfold response_json, throw, parse.
  destruct (ending (stream r)); [reflexivity|].
  by destruct (JSON_parse _).
Qed.

Lemma stream_op_requests id content secret w :
  requests (snd (stream_op id content secret w))
  = requests w ++ [request_of id content secret].
Proof.
  rewrite stream_op_unfold.
  destruct (network (request_of id content secret)) as [r|e]; [|reflexivity].
  destruct (ok r); cbn; [|reflexivity].
  destruct (body_stream r) as [b|]; [|reflexivity].
  rewrite read_loop_run. cbn.
  by destruct (effects_frame (lines_of (chunks b))
                 (sent (request_of id content secret) w)) as [-> _].
Qed.

(** Every operation issues exactly one request, with the headers that
    [getHeaders] builds from the caller's secret. *)
Lemma perform_request op secret w :
  exists req,
    requests (snd (run_op op secret w)) = requests w ++ [req] /\
    headers req = getHeaders secret.
Proof.
  destruct op as [| |id|id content|id content]; cbn [perform].
  1-4: eexists; split; [apply exchange_requests|reflexivity].
  eexists; split; [apply stream_op_requests|reflexivity].
Qed.

(** C8.  Each of the five operations issues one request; its headers carry
    [Content-Type: application/json], and they carry [X-Shared-Secret] with
    value [s] exactly when the caller's secret is the non-empty string
    [s]. *)
Theorem C8_request_headers op secret w :
  exists req,
    requests (snd (run_op op secret w)) = requests w ++ [req] /\
    headers req !! "Content-Type"%string = Some (str "application/json") /\
    (forall s, headers req !! "X-Shared-Secret"%string = Some s
               <-> secret = Some s /\ s <> []).
Proof.
  destruct (perform_request op secret w) as (req & Hreq & Hh).
  exists req. rewrite Hh. split; [exact Hreq|].
  split; [apply getHeaders_content_type|apply getHeaders_secret].
Qed.

(** C9.  With the empty string as secret every operation behaves exactly as
    with no secret, and the one request it issues has no [X-Shared-Secret]
    header. *)
Theorem C9_empty_secret_is_no_secret op w :
  run_op op (Some []) w = run_op op None w /\
  getHeaders (Some []) = getHeaders None /\
  exists req,
    requests (snd (run_op op (Some []) w)) = requests w ++ [req] /\
    headers req !! "X-Shared-Secret"%string = None.
Proof.
  split; [by destruct op|]. split; [reflexivity|].
  destruct (perform_request op (Some []) w) as (req & Hreq & Hh).
  exists req. split; [exact Hreq|]. rewrite Hh.
  apply lookup_singleton_ne. done.
Qed.

End Properties.

(** ** Decoding chunk by chunk *)

Lemma lead_closed b :
  Utf8.bytes_needed (snd (Utf8.lead b)) = 0 -> snd (Utf8.lead b) = Utf8.init.
Proof.
  unfold Utf8.lead.
  repeat match goal with
         | |- context [if ?c then _ else _] => destruct c
         end; cbn; done.
Qed.

(** Between two characters the decoder is in its initial state. *)
Lemma handler_closed st b :
  Utf8.bytes_needed (snd (Utf8.handler st b)) = 0 ->
  snd (Utf8.handler st b) = Utf8.init.
Proof.
  unfold Utf8.handler.
  destruct (N.eqb_spec (Utf8.bytes_needed st) 0) as [_|Hopen];
    [apply lead_closed|].
  destruct (negb _).
  - pose proof (lead_closed b) as H. destruct (Utf8.lead b) as [out st'].
    exact H.
  - destruct (_ =? Utf8.bytes_needed st); cbn; [done|]. intros H. by destruct Hopen.
Qed.

Lemma feed_closed (bs : list N) st :
  (Utf8.bytes_needed st = 0 -> st = Utf8.init) ->
  Utf8.bytes_needed (Utf8.feed st bs) = 0 -> Utf8.feed st bs = Utf8.init.
Proof.
  revert st. induction bs as [|b bs IH]; intros st Hst; cbn; [exact Hst|].
  apply IH, handler_closed.
Qed.

(** Once the decoder is back in its initial state, what follows is decoded
    as if from the start. *)
Lemma run_app (a b : list N) st :
  Utf8.feed st a = Utf8.init ->
  Utf8.run st (a ++ b) = Utf8.run st a ++ Utf8.run Utf8.init b.
Proof.
  revert st. induction a as [|x a IH]; intros st H; cbn in *.
  - by subst st.
  - destruct (Utf8.handler st x) as [out st']. cbn in H.
    by rewrite (IH _ H), app_assoc.
Qed.

Lemma run_nil : Utf8.run Utf8.init [] = [].
Proof. reflexivity. Qed.

Lemma feed_app (a b : list N) st :
  Utf8.feed st (a ++ b) = Utf8.feed (Utf8.feed st a) b.
Proof. revert st. induction a as [|x a IH]; intros st; cbn; [done|apply IH]. Qed.

Lemma strip_bom_id (cps : list N) :
  head cps <> Some Utf8.BOM -> Utf8.strip_bom cps = cps.
Proof.
  destruct cps as [|c r]; cbn; [done|]. intros H.
  destruct (N.eqb_spec c Utf8.BOM) as [->|_]; done.
Qed.

Lemma head_app_no_bom (x y : list N) :
  head x <> Some Utf8.BOM -> head y <> Some Utf8.BOM ->
  head (x ++ y) <> Some Utf8.BOM.
Proof. by destruct x. Qed.

(** C4 (amended).  Every chunk is decoded on its own, by a decoder that
    starts afresh and flushes at the end of the chunk; no partial character
    is carried from one chunk to the next.  The text so obtained equals the
    decoding of the concatenated bytes when every chunk stops on a character
    boundary (no multi-byte sequence is open at its end) and no chunk begins
    with a byte-order mark. *)
Theorem C4_decoding_chunks_on_character_boundaries (cs : list bytes) :
  Forall (fun c => Utf8.bytes_needed
                     (Utf8.feed Utf8.init (map Byte.to_N c)) = 0) cs ->
  Forall (fun c => head (Utf8.run Utf8.init (map Byte.to_N c))
                   <> Some Utf8.BOM) cs ->
  concat (map Utf8.decode cs) = Utf8.decode (concat cs).
Proof.
  intros Hclosed Hbom.
  assert (Utf8.feed Utf8.init (map Byte.to_N (concat cs)) = Utf8.init /\
          head (Utf8.run Utf8.init (map Byte.to_N (concat cs))) <> Some Utf8.BOM /\
          concat (map Utf8.decode cs)
          = flat_map Utf8.utf16 (Utf8.run Utf8.init (map Byte.to_N (concat cs))))
    as (_ & Hhead & ->).
  { induction Hclosed as [|c cs Hc _ IH]; [by repeat split|].
    apply Forall_cons in Hbom as [Hb Hbom].
    destruct (IH Hbom) as (Hfeed & Hhead & Heq).
    assert (Utf8.feed Utf8.init (map Byte.to_N c) = Utf8.init) as Hinit
      by (by apply feed_closed).
    cbn [concat map]. rewrite map_app, feed_app, Hinit, (run_app _ _ _ Hinit).
    split; [exact Hfeed|]. split; [by apply head_app_no_bom|].
    rewrite flat_map_app, <- Heq. f_equal.
    unfold Utf8.decode. by rewrite strip_bom_id. }
  unfold Utf8.decode. by rewrite strip_bom_id.
Qed.

(** ** The claims on concrete streams *)

(** C1, as stated, fails.  The three chunks of [sample_split] concatenate to
    two newline-terminated [data: ] records with valid JSON, yet the
    callback is never invoked: the first chunk is handled as a record that
    does not parse, and the other segments do not start with the prefix.
    And a record whose payload is the valid JSON text [null] is not
    delivered either, however the chunks are cut. *)
Lemma C1_counterexample :
  (Utf8.decode (concat sample_split) = record payload_a ++ record payload_b /\
   Json.parse payload_a = Some event_a /\
   Json.parse payload_b = Some event_b /\
   fst (run_stream sample_split) = Ok tt /\
   delivered (run_stream sample_split) = []) /\
  (Utf8.decode (concat sample_null) = record (str "null") /\
   Json.parse (str "null") = Some JNull /\
   delivered (run_stream sample_null) = []).
Proof. by vm_compute. Qed.

Lemma C1_witness :
  exists w' evs,
    run_stream sample_whole = (Ok tt, w') /\
    calls w' = calls fresh ++ evs /\
    length evs = length (concat [[payload_a]; [payload_b]]) /\
    Forall2 (fun p ev => Json.parse p = Some ev.2 /\ type_of ev.2 = Some ev.1)
      (concat [[payload_a]; [payload_b]]) evs.
Proof.
  apply (C1_whole_records_in_order silent Json.parse Json.stringify
           (serve (streaming sample_whole)) None false
           (str "c1") (str "hi") None sample_whole
           [[payload_a]; [payload_b]] fresh).
  - reflexivity.
  - repeat constructor.
  - repeat constructor;
      first [ apply (bool_decide_unpack _); vm_compute; exact I
            | eexists; split; [vm_compute; reflexivity | discriminate] ].
Defined.



(** C3, as stated, fails: the body of [sample_unterminated] ends without a
    newline after its only record, and the record is parsed and delivered
    all the same. *)
Lemma C3_counterexample :
  Utf8.decode (concat sample_unterminated) = str "data: " ++ payload_c /\
  last (Utf8.decode (concat sample_unterminated)) <> Some NL /\
  Json.parse payload_c = Some event_c /\
  run_stream sample_unterminated
  = (Ok tt,
     mk_world [stream_request Json.stringify None false (str "c1") (str "hi") None]
       2 [(Some (JStr (str "c")), event_c)] [] tt).
Proof. by vm_compute. Qed.

Lemma C3_witness :
  exists w' earlier,
    run_stream sample_unterminated = (Ok tt, w') /\
    calls w' = calls fresh ++ earlier ++ [(Some (JStr (str "c")), event_c)].
Proof.
  apply (C3_unterminated_final_record_is_delivered silent Json.parse
           Json.stringify (serve (streaming sample_unterminated)) None false
           (str "c1") (str "hi") None [] (jwire "data: {'type':'c'}")
           [] payload_c event_c (Some (JStr (str "c"))) fresh).
  - reflexivity.
  - reflexivity.
  - by left.
  - apply (bool_decide_unpack _). vm_compute. exact I.
  - reflexivity.
  - reflexivity.
Defined.

(** C4, as stated, fails: a character whose two bytes arrive in different
    chunks is not put together again.  Each half decodes to U+FFFD, so the
    text handled differs from the decoding of the concatenated bytes, and
    the record is lost. *)
Lemma C4_counterexample :
  Utf8.decode (concat sample_multibyte)
  = record (jtext "{'type':'" ++ [0xE9] ++ jtext "'}") /\
  concat (map Utf8.decode sample_multibyte)
  = jtext "data: {'type':'" ++ [0xFFFD; 0xFFFD] ++ jtext "'}" ++ [NL] /\
  concat (map Utf8.decode sample_multibyte)
  <> Utf8.decode (concat sample_multibyte) /\
  delivered (run_stream sample_multibyte) = [].
Proof. by vm_compute. Qed.

Lemma C4_witness :
  concat (map Utf8.decode [[Byte.xc3; Byte.xa9]; wire "a" ++ LF])
  = Utf8.decode (concat [[Byte.xc3; Byte.xa9]; wire "a" ++ LF]).
Proof.
  apply (C4_decoding_chunks_on_character_boundaries
           [[Byte.xc3; Byte.xa9]; wire "a" ++ LF]).
  - repeat constructor.
  - repeat constructor; vm_compute; discriminate.
Defined.



Lemma C6_witness :
  sendMessageStream silent Json.parse Json.stringify
    (serve (mk_response false (Some (mk_body sample_whole None)))) None false
    (str "c1") (str "hi") None fresh
  = (Throw (Error "Failed to send message"),
     sent (stream_request Json.stringify None false (str "c1") (str "hi") None)
       fresh) /\
  reads (snd (sendMessageStream silent Json.parse Json.stringify
                (serve (mk_response false (Some (mk_body sample_whole None))))
                None false (str "c1") (str "hi") None fresh)) = reads fresh /\
  calls (snd (sendMessageStream silent Json.parse Json.stringify
                (serve (mk_response false (Some (mk_body sample_whole None))))
                None false (str "c1") (str "hi") None fresh)) = calls fresh.
Proof.
  apply (C6_failed_status_reads_nothing silent Json.parse Json.stringify
           (serve (mk_response false (Some (mk_body sample_whole None)))) None false
           (str "c1") (str "hi") None
           (mk_response false (Some (mk_body sample_whole None))) fresh);
    reflexivity.
Defined.






(** * Further properties of the client *)

Section Operations.

Context {CB : Type}.
Variable onEvent : jsval -> json -> CB -> option exn * CB.
Variable JSON_parse : text -> option json.
Variable JSON_stringify : json -> text.
Variable network : Request -> Result Response.
Variable VITE_API_BASE : option text.
Variable PROD : bool.

Local Abbreviation run_op :=
  (perform onEvent JSON_parse JSON_stringify network VITE_API_BASE PROD).
Local Abbreviation req_of := (request_for JSON_stringify VITE_API_BASE PROD).
Local Abbreviation base := (API_BASE VITE_API_BASE PROD).

Implicit Types (w : World CB) (op : Operation) (secret : option text).

(** ** Requests and failures *)

(** What an operation does once [fetch] has settled. *)
Lemma perform_unfold op secret w :
  run_op op secret w
  = match network (req_of op secret) with
    | Throw e => (Throw e, sent (req_of op secret) w)
    | Ok response =>
        if ok response then
          match op with
          | SendMessageStream _ _ =>
              match body_stream response with
              | None => (Throw TypeError, sent (req_of op secret) w)
              | Some reader =>
                  read_loop onEvent JSON_parse (chunks reader) (ending reader)
                    (sent (req_of op secret) w)
              end
          | _ =>
              match response_json JSON_parse response
                      (sent (req_of op secret) w) with
              | (Ok _, w') => (Ok tt, w')
              | (Throw e, w') => (Throw e, w')
              end
          end
        else (Throw (Error (failure_message op)), sent (req_of op secret) w)
    end.
Proof.
  destruct op as [| |id|id content|id content]; cbn [perform request_for].
  1-4: unfold listConversations, createConversation, getConversation,
         sendMessage, bind, fetch, sent;
       destruct (network _) as [r|e]; [|reflexivity];
       destruct (ok r); cbn; [|reflexivity];
       by destruct (response_json JSON_parse r _) as [[v|e] w'].
  rewrite stream_op_unfold.
  destruct (network _) as [r|e]; [|reflexivity]. by destruct (ok r).
Qed.

Lemma response_json_world response w :
  snd (response_json JSON_parse response w) = w.
Proof.
  unfold response_json, throw, parse.
  destruct (ending (stream response)); [reflexivity|].
  by destruct (JSON_parse _).
Qed.

(** X1.  A response whose status is not a success makes every operation
    throw an [Error] with that operation's own message; the request has been
    issued and nothing else has happened: no read of the body, no callback
    invocation, no console output.  [sendMessage] and [sendMessageStream]
    throw the same message. *)
Theorem failed_status_throws_operation_error op secret response w :
  network (req_of op secret) = Ok response ->
  ok response = false ->
  run_op op secret w
  = (Throw (Error (failure_message op)), sent (req_of op secret) w).
Proof. intros Hn Hok. by rewrite perform_unfold, Hn, Hok. Qed.

(** X2.  When [fetch] itself rejects, every operation rejects with the very
    same error; the request has been issued and nothing else has
    happened. *)
Theorem network_failure_propagates op secret e w :
  network (req_of op secret) = Throw e ->
  run_op op secret w = (Throw e, sent (req_of op secret) w).
Proof. intros Hn. by rewrite perform_unfold, Hn. Qed.

(** ** Headers and addresses *)

(** Every operation issues exactly the request [request_for] names. *)
Lemma perform_issues op secret w :
  requests (snd (run_op op secret w)) = requests w ++ [req_of op secret].
Proof.
  rewrite perform_unfold.
  destruct (network _) as [r|e]; [|reflexivity].
  destruct (ok r); [|reflexivity].
  destruct op as [| |id|id content|id content];
    try match goal with
        | |- context [response_json JSON_parse r ?w0] =>
            pose proof (response_json_world r w0) as Hw;
            destruct (response_json JSON_parse r w0) as [[v|e] w'];
            cbn in *; by subst w'
        end.
  destruct (body_stream r) as [b|]; [|reflexivity].
  rewrite read_loop_run. cbn [snd bump requests].
  by destruct (effects_frame onEvent JSON_parse (lines_of (chunks b))
                 (sent (req_of (SendMessageStream id content) secret) w))
    as [-> _].
Qed.

(** X3.  The one request of every operation carries no header besides
    [Content-Type] and [X-Shared-Secret]. *)
Theorem no_other_header op secret w :
  exists req,
    requests (snd (perform onEvent JSON_parse JSON_stringify network
                     VITE_API_BASE PROD op secret w))
    = requests w ++ [req] /\
    forall name : string,
      is_Some (headers req !! name) ->
      name = "Content-Type"%string \/ name = "X-Shared-Secret"%string.
Proof.
  exists (req_of op secret). split; [apply perform_issues|].
  assert (headers (req_of op secret) = getHeaders secret) as ->
    by (by destruct op).
  unfold getHeaders. intros name [v Hv].
  destruct (decide (name = "Content-Type"%string)) as [|Hct]; [by left|].
  destruct (decide (name = "X-Shared-Secret"%string)) as [|Hss]; [by right|].
  destruct secret as [[|c r]|];
    rewrite ?lookup_insert_ne, lookup_singleton_ne in Hv by done; done.
Qed.


(** X5.  The conversation id is put into the path as it is, with no
    escaping: the request that [getConversation] issues for the id
    [id/message] goes to the same URL as the request that [sendMessage]
    issues for the id [id]; the two differ in method and body only. *)
Theorem conversation_id_is_not_escaped (id content : text) secret w :
  exists r1 r2,
    requests (snd (run_op (GetConversation (id ++ str "/message")) secret w))
    = requests w ++ [r1] /\
    requests (snd (run_op (SendMessage id content) secret w))
    = requests w ++ [r2] /\
    url r1 = url r2 /\
    headers r1 = headers r2 /\
    method r1 = None /\
    method r2 = Some "POST"%string.
Proof.
  eexists _, _. split; [apply perform_issues|]. split; [apply perform_issues|].
  by repeat split.
Qed.

End Operations.

Section Streaming.

Context {CB : Type}.
Variable onEvent : jsval -> json -> CB -> option exn * CB.
Variable JSON_parse : text -> option json.
Variable JSON_stringify : json -> text.
Variable network : Request -> Result Response.
Variable VITE_API_BASE : option text.
Variable PROD : bool.

Local Abbreviation handle := (handle_line onEvent JSON_parse).
Local Abbreviation effect := (line_effect onEvent JSON_parse).
Local Abbreviation effects := (lines_effect onEvent JSON_parse).
Local Abbreviation stream_op :=
  (sendMessageStream onEvent JSON_parse JSON_stringify network VITE_API_BASE PROD).
Local Abbreviation request_of :=
  (stream_request JSON_stringify VITE_API_BASE PROD).

Implicit Types (w : World CB) (line p : text) (cs : list bytes).

(** ** The whole run *)

(** The streaming operation on any response with a success status. *)
Lemma stream_op_settles id content secret response w :
  network (request_of id content secret) = Ok response ->
  ok response = true ->
  stream_op id content secret w
  = (stream_outcome response,
     bump (stream_reads response)
       (effects (lines_of (chunks (stream response)))
          (sent (request_of id content secret) w))).
Proof.
  intros Hn Hok. unfold stream_outcome, stream_reads.
  destruct (body_stream response) as [b|] eqn:Hb.
  - rewrite (stream_op_run _ _ _ _ _ _ _ _ _ _ w Hn Hok) by (by rewrite Hb).
    unfold stream. rewrite Hb. do 2 f_equal. lia.
  - rewrite (stream_op_no_body _ _ _ _ _ _ _ _ _ _ w Hn Hok Hb).
    unfold stream. by rewrite Hb.
Qed.

(** X6.  On a response with a success status the streaming operation
    settles as the body alone decides.  With a body it resolves when the
    data ends and rejects with the reader's error when a read fails, after
    the chunks before it have been handled, having performed one read per
    chunk and one more; without a body ([response.body] is [null]) it
    rejects with a [TypeError] before any read.  In both cases it issues one
    request and invokes the callback for exactly the events of the segments
    of the chunks, in order. *)
Theorem stream_run_summary id content secret response w :
  network (request_of id content secret) = Ok response ->
  ok response = true ->
  exists w',
    stream_op id content secret w = (stream_outcome response, w') /\
    requests w' = requests w ++ [request_of id content secret] /\
    reads w' = (stream_reads response + reads w)%nat /\
    calls w' = calls w ++ events JSON_parse (lines_of (chunks (stream response))).
Proof.
  intros Hn Hok. eexists. split; [apply (stream_op_settles _ _ _ _ w Hn Hok)|].
  cbn [requests reads calls bump].
  destruct (effects_frame onEvent JSON_parse (lines_of (chunks (stream response)))
              (sent (request_of id content secret) w)) as [-> ->].
  rewrite calls_effects. by cbn.
Qed.

(** ** What reaches the callback *)

Lemma event_of_sound line t v :
  event_of JSON_parse line = Some (t, v) ->
  startsWith (str "data: ") line = true /\
  JSON_parse (slice 6 line) = Some v /\
  type_of v = Some t /\ v <> JNull.
Proof.
  unfold event_of. destruct (startsWith _ line); [|done].
  destruct (JSON_parse (slice 6 line)) as [v'|]; [|done]. cbn.
  destruct (type_of v') as [t'|] eqn:Ht; [|done]. cbn.
  intros [= <- <-]. repeat split; try done. intros ->. done.
Qed.

Lemma events_sound (lines : list text) :
  Forall (fun ev => exists line,
            line ∈ lines /\
            startsWith (str "data: ") line = true /\
            JSON_parse (slice 6 line) = Some ev.2 /\
            type_of ev.2 = Some ev.1 /\ ev.2 <> JNull)
    (events JSON_parse lines).
Proof.
  apply Forall_forall. intros [t v] Hin.
  apply list_elem_of_omap in Hin as (line & Hl & He).
  exists line. split; [done|]. by apply event_of_sound.
Qed.

Lemma events_bound (lines : list text) :
  (length (events JSON_parse lines) <= length (data_lines lines))%nat.
Proof.
  induction lines as [|l ls IH]; [done|].
  unfold events, data_lines in *. cbn [omap list_omap List.filter].
  destruct (event_of JSON_parse l) as [[t v]|] eqn:He.
  - apply event_of_sound in He as [-> _]. cbn. lia.
  - destruct (startsWith _ l); cbn; lia.
Qed.

(** X7.  Whatever the stream holds, the callback's two arguments belong
    together: each invocation passes a value that is the parse of the
    payload of a [data: ] segment of some chunk, never [null], with the
    value's own [type] as the first argument; and there are at most as many
    invocations as [data: ] segments. *)
Theorem invocations_are_typed_events id content secret response w :
  network (request_of id content secret) = Ok response ->
  ok response = true ->
  exists evs,
    calls (snd (stream_op id content secret w)) = calls w ++ evs /\
    (length evs <= length (data_lines (lines_of (chunks (stream response)))))%nat /\
    Forall (fun ev => exists line,
              line ∈ lines_of (chunks (stream response)) /\
              startsWith (str "data: ") line = true /\
              JSON_parse (slice 6 line) = Some ev.2 /\
              type_of ev.2 = Some ev.1 /\ ev.2 <> JNull) evs.
Proof.
  intros Hn Hok. exists (events JSON_parse (lines_of (chunks (stream response)))).
  split; [by apply stream_op_calls|].
  split; [apply events_bound|apply events_sound].
Qed.

(** ** The console *)

Lemma console_effects_count (per_line : text -> nat) (lines : list text) :
  (forall line w,
     length (console (effect line w)) = (length (console w) + per_line line)%nat) ->
  forall w,
    length (console (effects lines w))
    = (length (console w) + list_sum (map per_line lines))%nat.
Proof.
  intros Hline. induction lines as [|l ls IH]; intros w; [cbn; lia|].
  rewrite effects_cons, IH, Hline. unfold list_sum. cbn. lia.
Qed.

Lemma data_lines_count (lines : list text) :
  list_sum (map (fun line => if startsWith (str "data: ") line then 1%nat else 0%nat)
              lines)
  = length (data_lines lines).
Proof.
  unfold data_lines. induction lines as [|l ls IH]; [done|].
  unfold list_sum in *. cbn [map foldr fold_right List.filter]. rewrite IH.
  by destruct (startsWith _ l).
Qed.

(** With a callback that returns normally, a [data: ] segment writes to the
    console exactly when it leads to no invocation. *)
Lemma console_effect_quiet line w :
  (forall t v s, (onEvent t v s).1 = None) ->
  (length (console (effect line w))
   + length (option_list (event_of JSON_parse line)))%nat
  = (length (console w)
     + if startsWith (str "data: ") line then 1 else 0)%nat.
Proof.
  intros Hq. unfold line_effect.
  destruct (line_cases JSON_parse line)
    as [H|(p & -> & [H|[(v & H & Ht)|(v & t & H & Ht)]])].
  - rewrite handle_line_plain by done. unfold event_of. rewrite H. cbn. lia.
  - rewrite handle_line_malformed, event_of_data, data_prefix, H by done.
    cbn. rewrite length_app. cbn. lia.
  - rewrite (handle_line_null _ _ _ _ _ H Ht), event_of_data, data_prefix, H.
    cbn. rewrite Ht. cbn. rewrite length_app. cbn. lia.
  - rewrite (handle_line_event _ _ _ _ _ _ H Ht), event_of_data, data_prefix, H.
    cbn. rewrite Ht. cbn. unfold deliver. specialize (Hq t v (callback w)).
    destruct (onEvent t v (callback w)) as [[e|] cb]; [done|]. cbn. lia.
Qed.

(** X8.  With a callback that never throws, no [data: ] segment is dropped
    without a trace: over a whole run the number of callback invocations and
    the number of console entries added sum to the number of segments that
    start with [data: ]. *)
Theorem data_segments_are_delivered_or_logged id content secret response w :
  (forall t v s, (onEvent t v s).1 = None) ->
  network (request_of id content secret) = Ok response ->
  ok response = true ->
  (length (calls (snd (stream_op id content secret w)))
   + length (console (snd (stream_op id content secret w))))%nat
  = (length (calls w) + length (console w)
     + length (data_lines (lines_of (chunks (stream response)))))%nat.
Proof.
  intros Hq Hn Hok.
  rewrite (stream_op_settles _ _ _ _ w Hn Hok).
  cbn [snd bump calls console].
  set (lines := lines_of (chunks (stream response))).
  set (w0 := sent (request_of id content secret) w).
  change (calls w) with (calls w0). change (console w) with (console w0).
  clearbody w0. clear Hn. revert w0.
  induction lines as [|l ls IH]; intros w0; [cbn; lia|].
  rewrite effects_cons, IH.
  pose proof (console_effect_quiet l w0 Hq) as Hc.
  pose proof (calls_effect onEvent JSON_parse l w0) as Hk.
  fold effect in Hk. rewrite Hk, length_app.
  unfold data_lines in *. cbn [List.filter].
  destruct (startsWith (str "data: ") l); cbn [length] in *; lia.
Qed.

(** With a callback that always throws, every [data: ] segment writes one
    line to the console. *)
Lemma console_effect_throwing line w :
  (forall t v s, is_Some (onEvent t v s).1) ->
  length (console (effect line w))
  = (length (console w) + if startsWith (str "data: ") line then 1 else 0)%nat.
Proof.
  intros Hq. unfold line_effect.
  destruct (line_cases JSON_parse line)
    as [H|(p & -> & [H|[(v & H & Ht)|(v & t & H & Ht)]])].
  - rewrite handle_line_plain by done. rewrite H. cbn. lia.
  - rewrite handle_line_malformed, data_prefix by done.
    cbn. rewrite length_app. cbn. lia.
  - rewrite (handle_line_null _ _ _ _ _ H Ht), data_prefix.
    cbn. rewrite length_app. cbn. lia.
  - rewrite (handle_line_event _ _ _ _ _ _ H Ht), data_prefix.
    cbn. unfold deliver. destruct (Hq t v (callback w)) as [e He].
    destruct (onEvent t v (callback w)) as [[e'|] cb]; [|done].
    cbn. rewrite length_app. cbn. lia.
Qed.

(** X9.  An exception thrown by the callback never leaves the read loop:
    with a callback that throws on every invocation the operation still
    settles as the body alone decides (as its end says, or with the
    [TypeError] of a response without a body), the callback is still
    invoked for every event in order, and each [data: ] segment, whether its
    payload parsed or not, leaves one [Failed to parse SSE event:] line on
    the console. *)
Theorem throwing_callback_never_stops_the_stream id content secret response w :
  (forall t v s, is_Some (onEvent t v s).1) ->
  network (request_of id content secret) = Ok response ->
  ok response = true ->
  exists w',
    stream_op id content secret w = (stream_outcome response, w') /\
    calls w' = calls w ++ events JSON_parse (lines_of (chunks (stream response))) /\
    length (console w')
    = (length (console w)
       + length (data_lines (lines_of (chunks (stream response)))))%nat /\
    Forall (fun entry => entry.1 = "Failed to parse SSE event:"%string)
      (drop (length (console w)) (console w')).
Proof.
  intros Hq Hn Hok. eexists.
  split; [apply (stream_op_settles _ _ _ _ w Hn Hok)|].
  cbn [bump calls console]. split; [by rewrite calls_effects|].
  set (lines := lines_of (chunks (stream response))).
  set (w0 := sent (request_of id content secret) w).
  change (console w) with (console w0). clearbody w0. clear Hn.
  split.
  - rewrite (console_effects_count
               (fun line => if startsWith (str "data: ") line then 1%nat else 0%nat)).
    + by rewrite data_lines_count.
    + intros line w1. by apply console_effect_throwing.
  - assert (exists added,
              console (effects lines w0) = console w0 ++ added /\
              Forall (fun entry => entry.1 = "Failed to parse SSE event:"%string)
                added) as (added & -> & Hadded).
    { revert w0. induction lines as [|l ls IH]; intros w0.
      - exists []. by rewrite app_nil_r.
      - rewrite effects_cons. destruct (IH (effect l w0)) as (added & -> & Ha).
        assert (exists first,
                  console (effect l w0) = console w0 ++ first /\
                  Forall (fun entry => entry.1 = "Failed to parse SSE event:"%string)
                    first) as (first & -> & Hf).
        { unfold line_effect.
          destruct (line_cases JSON_parse l)
            as [H|(p & -> & [H|[(v & H & Ht)|(v & t & H & Ht)]])].
          - rewrite handle_line_plain by done. exists []. by rewrite app_nil_r.
          - rewrite handle_line_malformed by done. eexists. split; [reflexivity|].
            by repeat constructor.
          - rewrite (handle_line_null _ _ _ _ _ H Ht). eexists.
            split; [reflexivity|]. by repeat constructor.
          - rewrite (handle_line_event _ _ _ _ _ _ H Ht). cbn. unfold deliver.
            destruct (onEvent t v (callback w0)) as [[e'|] cb]; cbn.
            + eexists. split; [reflexivity|]. by repeat constructor.
            + exists []. by rewrite app_nil_r. }
        exists (first ++ added). rewrite <- app_assoc. split; [done|].
        by apply Forall_app. }
    by rewrite drop_app_length.
Qed.

End Streaming.

(** ** Lines and bytes *)

Lemma join_cons_head sep c (l : text) (ls : list text) :
  Json.join sep ((c :: l) :: ls) = c :: Json.join sep (l :: ls).
Proof. by destruct ls. Qed.

(** X10.  Splitting a text on newlines loses nothing and leaves no newline
    behind: joining the segments with newlines gives the text back, no
    segment holds a newline, and there is one segment more than there are
    newlines. *)
Theorem split_lines_is_lossless (t : text) :
  Json.join [NL] (split NL t) = t /\
  Forall (fun line => NL ∉ line) (split NL t) /\
  length (split NL t) = Datatypes.S (newlines t).
Proof.
  unfold newlines. induction t as [|c t (Hj & Hf & Hl)].
  - repeat split. repeat constructor. apply not_elem_of_nil.
  - pose proof (split_nonempty NL t) as Hne. cbn [split List.filter].
    rewrite (N.eqb_sym NL c).
    destruct (N.eqb_spec c NL) as [->|Hc].
    + repeat split.
      * destruct (split NL t) as [|l ls] eqn:E; [done|].
        change (Json.join [NL] ([] :: l :: ls))
          with (NL :: Json.join [NL] (l :: ls)).
        by rewrite Hj.
      * constructor; [apply not_elem_of_nil|done].
      * cbn. by rewrite Hl.
    + destruct (split NL t) as [|l ls] eqn:E; [done|].
      repeat split.
      * by rewrite join_cons_head, Hj.
      * apply Forall_cons in Hf as [Hl1 Hf]. constructor; [|done].
        by apply not_elem_of_cons.
      * exact Hl.
Qed.

Lemma run_ascii (bs : list N) :
  Forall (fun b => b < 0x80) bs -> Utf8.run Utf8.init bs = bs.
Proof.
  induction 1 as [|b bs Hb _ IH]; [reflexivity|].
  cbn [Utf8.run]. unfold Utf8.handler, Utf8.lead, Utf8.between. cbn [Utf8.bytes_needed Utf8.init N.eqb].
  assert (((0 <=? b) && (b <=? 127)) = true) as ->
    by (apply andb_true_intro; split; apply N.leb_le; lia).
  cbn. by rewrite IH.
Qed.

Lemma utf16_small (cps : list N) :
  Forall (fun c => c < 0x80) cps -> flat_map Utf8.utf16 cps = cps.
Proof.
  induction 1 as [|c cps Hc _ IH]; [reflexivity|].
  cbn [flat_map]. rewrite IH. unfold Utf8.utf16.
  by assert ((c <? 65536) = true) as -> by (apply N.ltb_lt; lia).
Qed.

Lemma strip_bom_small (cps : list N) :
  Forall (fun c => c < 0x80) cps -> Utf8.strip_bom cps = cps.
Proof.
  destruct 1 as [|c cps Hc _]; [reflexivity|]. cbn.
  destruct (N.eqb_spec c Utf8.BOM) as [->|_]; [|reflexivity].
  unfold Utf8.BOM in Hc. lia.
Qed.

Lemma decode_ascii_only (value : bytes) :
  ascii_only value -> Utf8.decode value = map Byte.to_N value.
Proof.
  intros H. assert (Forall (fun b => b < 0x80) (map Byte.to_N value)) as Hn.
  { induction H; cbn [map]; constructor; done. }
  unfold Utf8.decode. by rewrite run_ascii, strip_bom_small, utf16_small.
Qed.

(** X11.  A body made of 7-bit bytes only is decoded byte for byte, so for
    such a body it makes no difference to the text where the chunk
    boundaries fall: decoding chunk by chunk gives the decoding of the whole
    body. *)
Theorem ascii_chunks_decode_verbatim (cs : list bytes) :
  Forall ascii_only cs ->
  concat (map Utf8.decode cs) = map Byte.to_N (concat cs) /\
  concat (map Utf8.decode cs) = Utf8.decode (concat cs).
Proof.
  intros H.
  assert (concat (map Utf8.decode cs) = map Byte.to_N (concat cs)) as Heq.
  { induction H as [|c cs Hc _ IH]; [reflexivity|].
    cbn [map concat]. by rewrite map_app, IH, decode_ascii_only. }
  split; [exact Heq|]. rewrite Heq. symmetry. apply decode_ascii_only.
  clear Heq. unfold ascii_only in *.
  induction H as [|c cs Hc _ IH]; [constructor|].
  cbn [concat]. by apply Forall_app.
Qed.

(** ** Decoding keeps the line structure *)

Lemma newlines_app (a b : text) : newlines (a ++ b) = (newlines a + newlines b)%nat.
Proof. unfold newlines. by rewrite List.filter_app, length_app. Qed.

Lemma newlines_one (c : N) :
  newlines [c] = if c =? NL then 1%nat else 0%nat.
Proof. unfold newlines. cbn [List.filter]. rewrite (N.eqb_sym NL c). by destruct (c =? NL). Qed.

Lemma land_low_bits b n : N.land b (N.ones n) = b mod 2 ^ n.
Proof. apply N.land_ones. Qed.

(** A sequence whose gathered bits are not all zero does not end in a line
    feed. *)
Lemma continued_code_point_not_NL c y :
  c <> 0 -> N.lor (N.shiftl c 6) y <> NL.
Proof.
  intros Hc H. apply (f_equal (fun x => N.shiftr x 6)) in H.
  rewrite N.shiftr_lor, N.shiftr_shiftl_l, N.sub_diag, N.shiftl_0_r in H by lia.
  change (N.shiftr NL 6) with 0 in H.
  apply N.lor_eq_0_iff in H as [H _]. done.
Qed.

Ltac split_comparisons :=
  repeat match goal with
         | |- context [?a <=? ?b] => destruct (N.leb_spec a b)
         | |- context [?a =? ?b] => destruct (N.eqb_spec a b)
         end.

Ltac low_bits b :=
  rewrite ?land_low_bits in *;
  change (2 ^ 6) with 64 in *; change (2 ^ 5) with 32 in *;
  change (2 ^ 4) with 16 in *; change (2 ^ 3) with 8 in *;
  pose proof (N.div_mod b 64); pose proof (N.mod_upper_bound b 64);
  pose proof (N.div_mod b 32); pose proof (N.mod_upper_bound b 32);
  pose proof (N.div_mod b 16); pose proof (N.mod_upper_bound b 16);
  pose proof (N.div_mod b 8); pose proof (N.mod_upper_bound b 8).

(** A first byte leaves the decoder in a state of the invariant, and puts
    out a line feed exactly when it is one. *)
Lemma lead_step b :
  decoder_invariant (snd (Utf8.lead b)) /\
  newlines (fst (Utf8.lead b)) = if b =? NL then 1%nat else 0%nat.
Proof.
  unfold Utf8.lead, Utf8.between, Utf8.REPLACEMENT.
  change 0x1F with (N.ones 5). change 0xF with (N.ones 4).
  change 0x7 with (N.ones 3).
  destruct (N.eqb_spec b NL) as [Hb|Hb]; unfold NL in Hb;
    split_comparisons; cbn [andb fst snd negb];
    try lia;
    (split;
     [|first [ reflexivity
             | rewrite newlines_one; unfold NL; split_comparisons;
               first [reflexivity|lia] ]]);
    unfold decoder_invariant, Utf8.init;
    cbn [Utf8.bytes_needed Utf8.bytes_seen Utf8.code_point
         Utf8.lower_boundary Utf8.upper_boundary];
    first [ by left
          | right; low_bits b;
            split; [lia|split; [lia|split; [lia|intros Hz; lia]]] ].
Qed.

(** Every step of the decoder keeps the invariant, and puts out a line feed
    exactly when the byte is one. *)
Lemma handler_step st b :
  decoder_invariant st ->
  decoder_invariant (snd (Utf8.handler st b)) /\
  newlines (fst (Utf8.handler st b)) = if b =? NL then 1%nat else 0%nat.
Proof.
  intros Hinv. unfold Utf8.handler.
  destruct (N.eqb_spec (Utf8.bytes_needed st) 0) as [Hz|Hopen];
    [apply lead_step|].
  destruct Hinv as [Hz|(Hseen & Hlo & Hhi & Hcp)]; [done|].
  unfold Utf8.between.
  destruct (N.leb_spec (Utf8.lower_boundary st) b) as [Hb1|Hb1];
    destruct (N.leb_spec b (Utf8.upper_boundary st)) as [Hb2|Hb2];
    cbn [andb negb].
  2-4: destruct (lead_step b) as [Hi Hn]; destruct (Utf8.lead b) as [out st'];
       cbn [fst snd] in *; split; [exact Hi|];
       change (Utf8.REPLACEMENT :: out) with ([Utf8.REPLACEMENT] ++ out);
       by rewrite newlines_app, Hn.
  assert ((b =? NL) = false) as -> by (apply N.eqb_neq; unfold NL; lia).
  change 0x3F with (N.ones 6).
  destruct (N.eqb_spec (Utf8.bytes_seen st + 1) (Utf8.bytes_needed st))
    as [Hlast|Hmore]; cbn [fst snd].
  - split; [by left|]. rewrite newlines_one.
    assert (Utf8.code_point st <> 0) as Hc by (intros H0; specialize (Hcp H0); lia).
    by assert ((N.lor (N.shiftl (Utf8.code_point st) 6) (N.land b (N.ones 6)) =? NL)
               = false) as -> by (by apply N.eqb_neq, continued_code_point_not_NL).
  - split; [|reflexivity]. right.
    cbn [Utf8.bytes_needed Utf8.bytes_seen Utf8.code_point
         Utf8.lower_boundary Utf8.upper_boundary].
    split; [lia|]. split; [lia|]. split; [lia|]. intros H0.
    apply N.lor_eq_0_iff in H0 as [H1 H2].
    apply N.shiftl_eq_0_iff in H1. specialize (Hcp H1).
    low_bits b. lia.
Qed.

Lemma run_keeps_newlines (bs : list N) st :
  decoder_invariant st -> newlines (Utf8.run st bs) = newlines bs.
Proof.
  revert st. induction bs as [|b bs IH]; intros st Hinv.
  - cbn. by destruct (_ =? 0).
  - cbn [Utf8.run]. destruct (handler_step st b Hinv) as [Hi Hn].
    destruct (Utf8.handler st b) as [out st']. cbn [fst snd] in *.
    rewrite newlines_app, Hn, (IH _ Hi).
    change (b :: bs) with ([b] ++ bs). by rewrite newlines_app, newlines_one.
Qed.

Lemma utf16_keeps_newlines (cps : list N) :
  newlines (flat_map Utf8.utf16 cps) = newlines cps.
Proof.
  induction cps as [|c cps IH]; [reflexivity|].
  cbn [flat_map]. change (c :: cps) with ([c] ++ cps).
  rewrite !newlines_app, IH. f_equal. unfold Utf8.utf16.
  destruct (N.ltb_spec c 0x10000); [reflexivity|].
  rewrite newlines_one.
  set (q := (c - 0x10000) / 0x400). set (r := (c - 0x10000) mod 0x400).
  clearbody q r. change [0xD800 + q; 0xDC00 + r] with ([0xD800 + q] ++ [0xDC00 + r]).
  rewrite newlines_app, !newlines_one. unfold NL.
  split_comparisons; lia.
Qed.

Lemma strip_bom_keeps_newlines (cps : list N) :
  newlines (Utf8.strip_bom cps) = newlines cps.
Proof.
  destruct cps as [|c cps]; [reflexivity|]. cbn [Utf8.strip_bom].
  destruct (N.eqb_spec c Utf8.BOM) as [->|_]; reflexivity.
Qed.

Lemma newlines_of_bytes (value : bytes) :
  newlines (map Byte.to_N value) = line_feeds value.
Proof.
  unfold newlines, line_feeds. induction value as [|b value IH]; [reflexivity|].
  cbn [map List.filter]. rewrite (N.eqb_sym NL).
  destruct (_ =? NL); cbn [length]; by rewrite IH.
Qed.

(** X12.  Decoding neither makes nor loses a line break, whatever the
    bytes are, malformed sequences included: the text of a chunk holds as
    many newlines as the chunk holds line-feed bytes, so the loop visits one
    segment more than the chunk has line-feed bytes. *)
Theorem decoding_keeps_line_structure (value : bytes) :
  newlines (Utf8.decode value) = line_feeds value /\
  length (split NL (Utf8.decode value)) = Datatypes.S (line_feeds value).
Proof.
  assert (newlines (Utf8.decode value) = line_feeds value) as H.
  { unfold Utf8.decode.
    rewrite utf16_keeps_newlines, strip_bom_keeps_newlines, run_keeps_newlines
      by (by left).
    apply newlines_of_bytes. }
  split; [exact H|].
  destruct (split_lines_is_lossless (Utf8.decode value)) as (_ & _ & ->).
  by rewrite H.
Qed.

(** ** The further properties on concrete inputs *)

Lemma failed_status_throws_operation_error_witness :
  perform silent Json.parse Json.stringify
    (serve (mk_response false (Some (mk_body [] None)))) None true
    ListConversations (Some (str "s3")) fresh
  = (Throw (Error "Failed to list conversations"),
     sent (request_for Json.stringify None true ListConversations
             (Some (str "s3"))) fresh).
Proof.
  apply (failed_status_throws_operation_error silent Json.parse Json.stringify
           (serve (mk_response false (Some (mk_body [] None)))) None true
           ListConversations (Some (str "s3"))
           (mk_response false (Some (mk_body [] None))) fresh); reflexivity.
Defined.

Lemma network_failure_propagates_witness :
  perform silent Json.parse Json.stringify
    (fun _ => Throw (Foreign "offline")) None false
    (SendMessageStream (str "c1") (str "hi")) None fresh
  = (Throw (Foreign "offline"),
     sent (request_for Json.stringify None false
             (SendMessageStream (str "c1") (str "hi")) None) fresh).
Proof.
  apply (network_failure_propagates silent Json.parse Json.stringify
           (fun _ => Throw (Foreign "offline")) None false
           (SendMessageStream (str "c1") (str "hi")) None
           (Foreign "offline") fresh); reflexivity.
Defined.


Lemma stream_run_summary_witness :
  exists w',
    sendMessageStream silent Json.parse Json.stringify
      (serve (breaking sample_whole (Foreign "reset"))) None false
      (str "c1") (str "hi") None fresh
    = (Throw (Foreign "reset"), w') /\
    requests w'
    = requests fresh
        ++ [stream_request Json.stringify None false (str "c1") (str "hi") None] /\
    reads w' = (length sample_whole + 1 + reads fresh)%nat /\
    calls w' = calls fresh ++ events Json.parse (lines_of sample_whole).
Proof.
  apply (stream_run_summary silent Json.parse Json.stringify
           (serve (breaking sample_whole (Foreign "reset"))) None false
           (str "c1") (str "hi") None
           (breaking sample_whole (Foreign "reset")) fresh); reflexivity.
Defined.

Lemma invocations_are_typed_events_witness :
  exists evs,
    calls (snd (run_stream sample_mixed)) = calls fresh ++ evs /\
    (length evs <= length (data_lines (lines_of sample_mixed)))%nat /\
    Forall (fun ev => exists line,
              line ∈ lines_of sample_mixed /\
              startsWith (str "data: ") line = true /\
              Json.parse (slice 6 line) = Some ev.2 /\
              type_of ev.2 = Some ev.1 /\ ev.2 <> JNull) evs.
Proof.
  apply (invocations_are_typed_events silent Json.parse Json.stringify
           (serve (streaming sample_mixed)) None false
           (str "c1") (str "hi") None (streaming sample_mixed) fresh);
    reflexivity.
Defined.

Lemma data_segments_are_delivered_or_logged_witness :
  (length (calls (snd (run_stream sample_mixed)))
   + length (console (snd (run_stream sample_mixed))))%nat
  = (length (calls fresh) + length (console fresh)
     + length (data_lines (lines_of sample_mixed)))%nat.
Proof.
  apply (data_segments_are_delivered_or_logged silent Json.parse Json.stringify
           (serve (streaming sample_mixed)) None false
           (str "c1") (str "hi") None (streaming sample_mixed) fresh);
    reflexivity.
Defined.

Lemma throwing_callback_never_stops_the_stream_witness :
  exists w',
    sendMessageStream throwing Json.parse Json.stringify
      (serve (streaming sample_mixed)) None false
      (str "c1") (str "hi") None fresh
    = (Ok tt, w') /\
    calls w' = calls fresh ++ events Json.parse (lines_of sample_mixed) /\
    length (console w')
    = (length (console fresh) + length (data_lines (lines_of sample_mixed)))%nat /\
    Forall (fun entry => entry.1 = "Failed to parse SSE event:"%string)
      (drop (length (console fresh)) (console w')).
Proof.
  apply (throwing_callback_never_stops_the_stream throwing Json.parse
           Json.stringify (serve (streaming sample_mixed)) None false
           (str "c1") (str "hi") None (streaming sample_mixed) fresh).
  - intros t v s. by eexists.
  - reflexivity.
  - reflexivity.
Defined.

Lemma ascii_chunks_decode_verbatim_witness :
  concat (map Utf8.decode sample_split) = map Byte.to_N (concat sample_split) /\
  concat (map Utf8.decode sample_split) = Utf8.decode (concat sample_split).
Proof.
  apply (ascii_chunks_decode_verbatim sample_split).
  repeat constructor.
Defined.
